(** * Event dispatcher: dispatch, validation, handlers and the socket registry

    A shallow embedding of the TypeScript sources of the event-dispatcher
    service: the domain dispatcher (domain/services/EventDispatcher.ts), the
    application service (application/EventService.ts), the two handlers
    (application/handlers), the notification DTO, the Socket.IO adapter and
    the HTTP notification adapter (infrastructure/adapters).

    Values travelling through the service are JSON values parsed from request
    bodies; TypeScript types are erased at run time, so the embedding keeps
    the JavaScript value and its run-time checks (truthiness, property reads,
    strict equality, string conversion in template literals). *)

From Stdlib Require Import QArith Qcanon.
From stdpp Require Import base strings list gmap numbers pretty.

Set Warnings "-register-all".
Local Open Scope string_scope.
Local Open Scope list_scope.

(** ** JavaScript values and completions *)

(** Values of the run time, as [JSON.parse] produces them, plus [undefined].
    An object is the list of its own properties; a read takes the first
    entry of a name. Numbers are the rationals they denote. *)
Inductive JsValue : Type :=
  | JUndefined
  | JNull
  | JBool (b : bool)
  | JNum (q : Qc)
  | JStr (s : string)
  | JArr (elems : list JsValue)
  | JObj (props : list (string * JsValue)).

(** What a [throw] carries: the native [TypeError] of the engine, or
    [new Error(message)]. *)
Inductive JsError : Type :=
  | TypeError
  | Error (message : string).

(** How an evaluation ends: normally with a value, or by a [throw]. *)
Inductive Completion (A : Type) : Type :=
  | Normal (a : A)
  | Throw (e : JsError).
Arguments Normal {A} a.
Arguments Throw {A} e.

(** Settlement of the promise an [async] function returns. *)
Inductive Promise (A : Type) : Type :=
  | Fulfilled (a : A)
  | Rejected (e : JsError).
Arguments Fulfilled {A} a.
Arguments Rejected {A} e.

(** Sequencing of completions: the first [throw] ends the evaluation. *)
Global Instance Completion_ret : MRet Completion := λ A a, Normal a.

Global Instance Completion_bind : MBind Completion := λ A B f c,
  match c with
  | Normal a => f a
  | Throw e => Throw e
  end.

Global Instance Completion_fmap : FMap Completion := λ A B f c,
  match c with
  | Normal a => Normal (f a)
  | Throw e => Throw e
  end.

(** [Number::toString] belongs to the engine. *)
Class Runtime : Type := { number_to_string : Qc → string }.

(** ToBoolean. *)
Definition truthy (v : JsValue) : bool :=
  match v with
  | JUndefined | JNull => false
  | JBool b => b
  | JNum q => negb (bool_decide (q = 0%Qc))
  | JStr s => negb (bool_decide (s = ""))
  | JArr _ | JObj _ => true
  end.

(** Own property of an object literal. *)
Fixpoint own_property (props : list (string * JsValue)) (name : string) : JsValue :=
  match props with
  | [] => JUndefined
  | (k, v) :: rest => if bool_decide (k = name) then v else own_property rest name
  end.

(** [v.name] for the names the service reads (none is an array index and
    none lives on a built-in prototype): reading from [undefined] or [null]
    throws a TypeError, arrays and strings carry [length], any other miss
    is [undefined]. The length of a string is counted on the characters of
    the embedding, which agrees with the engine on whether it is zero. *)
Definition get_prop (v : JsValue) (name : string) : Completion JsValue :=
  match v with
  | JUndefined | JNull => Throw TypeError
  | JObj props => Normal (own_property props name)
  | JArr elems =>
      Normal (if bool_decide (name = "length")
              then JNum (Q2Qc (inject_Z (Z.of_nat (length elems)))) else JUndefined)
  | JStr s =>
      Normal (if bool_decide (name = "length")
              then JNum (Q2Qc (inject_Z (Z.of_nat (String.length s)))) else JUndefined)
  | JBool _ | JNum _ => Normal JUndefined
  end.

(** [v === 0]. *)
Definition strict_equals_zero (v : JsValue) : bool :=
  match v with
  | JNum q => bool_decide (q = 0%Qc)
  | _ => false
  end.

(** [v === s] for a string literal [s]. *)
Definition strict_equals_string (v : JsValue) (s : string) : bool :=
  match v with
  | JStr t => bool_decide (t = s)
  | _ => false
  end.

Section ToString.
Context `{Runtime}.

(** ToString, as a template literal applies it. An array joins its
    elements with commas, [null] and [undefined] elements giving the empty
    string. A plain object prints as [[object Object]] unless it carries an
    own [toString] property: parsed from JSON that property is not
    callable, [valueOf] returns the object itself, and the conversion
    throws a TypeError. *)
Fixpoint toString (v : JsValue) : Completion string :=
  match v with
  | JUndefined => Normal "undefined"
  | JNull => Normal "null"
  | JBool b => Normal (if b then "true" else "false")
  | JNum q => Normal (number_to_string q)
  | JStr s => Normal s
  | JArr elems =>
      let element (x : JsValue) : Completion string :=
        match x with
        | JUndefined | JNull => Normal ""
        | _ => toString x
        end in
      (fix join (l : list JsValue) : Completion string :=
         match l with
         | [] => Normal ""
         | [x] => element x
         | x :: rest =>
             match element x with
             | Throw e => Throw e
             | Normal s =>
                 match join rest with
                 | Throw e => Throw e
                 | Normal r => Normal (s +:+ "," +:+ r)
                 end
             end
         end) elems
  | JObj props =>
      if bool_decide ("toString" ∈ props.*1) then Throw TypeError
      else Normal "[object Object]"
  end.

End ToString.

(** ** domain/model/Event.ts and EventHandler.ts *)

Module EventType.

Definition CRYPTO_UPDATE_EUR : string := "CRYPTO_UPDATE_EUR".

Definition CRYPTO_UPDATE_USD : string := "CRYPTO_UPDATE_USD".

Definition USER_NOTIFICATION : string := "USER_NOTIFICATION".

(** [Object.values(EventType)]. *)
Definition values : list string :=
  [CRYPTO_UPDATE_EUR; CRYPTO_UPDATE_USD; USER_NOTIFICATION].

End EventType.

(** The [Event] interface. Its field types are erased at run time: a request
    body cast to [Event] carries whatever JSON it was given. *)
Record Event : Type := { eventType : JsValue; payload : JsValue }.

(** The [EventHandler] interface over a world [W] that handlers act on.
    [hid] stands for the identity of the handler instance. A handler may
    throw. *)
Record EventHandler (W : Type) : Type := {
  hid : nat;
  eventTypes : list string;
  handle : Event → W → Completion unit * W
}.
Arguments hid {W} _.
Arguments eventTypes {W} _.
Arguments handle {W} _ _ _.

(** What a call of the dispatcher leaves behind: the handler invocations it
    made, in order, each with the event it passed; how it ended; the world
    after it. *)
Record Dispatched (W : Type) : Type := {
  invoked : list (nat * Event);
  outcome : Completion unit;
  after : W
}.
Arguments invoked {W} _.
Arguments outcome {W} _.
Arguments after {W} _.

(** ** domain/services/EventDispatcher.ts *)

Module DomainEventDispatcher.
Section Dispatcher.
Context `{Runtime} {W : Type}.

(** Body of the inner [forEach] of the constructor: create the list of
    the kind when the map has none, then push the handler on it. *)
Definition register (handler : EventHandler W)
    (handlers : gmap string (list (EventHandler W))) (eventType : string)
    : gmap string (list (EventHandler W)) :=
  let handlers1 :=
    if bool_decide (is_Some (handlers !! eventType)) then handlers
    else <[eventType := []]> handlers in
  match handlers1 !! eventType with
  | Some registered => <[eventType := registered ++ [handler]]> handlers1
  | None => handlers1
  end.

Definition constructor (handlers : list (EventHandler W))
    : gmap string (list (EventHandler W)) :=
  foldl (λ m handler, foldl (register handler) m (eventTypes handler)) ∅ handlers.

(** [Map.get]: every key of the map is a string. *)
Definition Map_get (handlers : gmap string (list (EventHandler W)))
    (key : JsValue) : option (list (EventHandler W)) :=
  match key with
  | JStr k => handlers !! k
  | _ => None
  end.

(** [handlers.forEach(handler => handler.handle(event))]: a handler that
    throws ends the iteration and the exception leaves [dispatch]. *)
Fixpoint forEach_handle (handlers : list (EventHandler W)) (event : Event)
    (w : W) : Dispatched W :=
  match handlers with
  | [] => {| invoked := []; outcome := Normal (); after := w |}
  | handler :: rest =>
      match handle handler event w with
      | (Normal _, w1) =>
          let r := forEach_handle rest event w1 in
          {| invoked := (hid handler, event) :: invoked r;
             outcome := outcome r; after := after r |}
      | (Throw e, w1) =>
          {| invoked := [(hid handler, event)]; outcome := Throw e; after := w1 |}
      end
  end.

Definition dispatch (handlers : gmap string (list (EventHandler W)))
    (event : Event) (w : W) : Dispatched W :=
  match Map_get handlers (eventType event) with
  | Some (handler :: rest) => forEach_handle (handler :: rest) event w
  | _ =>
      {| invoked := [];
         outcome := kind ← toString (eventType event);
                    Throw (Error ("No handler found for event type: " +:+ kind));
         after := w |}
  end.

End Dispatcher.
End DomainEventDispatcher.

(** ** domain/ports *)

(** [EventOutputPort], implemented over a world [W]. The user id arrives
    untyped from the payload. *)
Record EventOutputPort (W : Type) : Type := {
  sendToUser : JsValue → JsValue → W → Completion unit * W;
  broadcastEUR : JsValue → W → Completion unit * W;
  broadcastUSD : JsValue → W → Completion unit * W
}.
Arguments sendToUser {W} _ _ _ _.
Arguments broadcastEUR {W} _ _ _.
Arguments broadcastUSD {W} _ _ _.

(** [NotificationServicePort]: the call returns a promise, given here by
    its settlement. *)
Record NotificationServicePort (W : Type) : Type := {
  sendNotification : string → JsValue → W → Completion (Promise unit) * W
}.
Arguments sendNotification {W} _ _ _ _.

(** [new Date().toISOString()] reads the clock of the world. *)
Class Clock (W : Type) : Type := { now_toISOString : W → string * W }.

(** ** application/DTO *)

Module ViewUpdateMessage.

(** Modelled from the spec: [createViewUpdateMessage], whose file
    (application/DTO/ViewUpdateMessage.ts) is not among the sources. The
    spec gives the broadcast view as the generation timestamp and the
    payload passed through; the [eventType] tag is the one the test suite
    of the service reads back from the broadcast. *)
Definition createViewUpdateMessage (timestamp : string) (payload : JsValue) : JsValue :=
  JObj [("eventType", JStr "CRYPTO_UPDATE");
        ("timestamp", JStr timestamp);
        ("payload", payload)].

End ViewUpdateMessage.

Module NotificationUpdateMessage.

(** The callback of [map]: [{ id: crypto.id, symbol: crypto.symbol,
    price: crypto.price }]. *)
Definition project (crypto : JsValue) : Completion JsValue :=
  id ← get_prop crypto "id";
  symbol ← get_prop crypto "symbol";
  price ← get_prop crypto "price";
  Normal (JObj [("id", id); ("symbol", symbol); ("price", price)]).

(** [v.map(f)]: only an array has [map]; on [null], [undefined] and on any
    other JSON value the call is a TypeError. *)
Definition Array_map (f : JsValue → Completion JsValue) (v : JsValue)
    : Completion (list JsValue) :=
  match v with
  | JArr elems => mapM f elems
  | _ => Throw TypeError
  end.

Definition createNotificationUpdateMessage (timestamp : string)
    (eventInbound : Event) : Completion JsValue :=
  cryptoPriceData ← Array_map project (payload eventInbound);
  Normal (JObj [("timestamp", JStr timestamp); ("payload", JArr cryptoPriceData)]).

End NotificationUpdateMessage.

(** ** application/handlers *)

Module CryptoUpdateHandler.
Section Handler.
Context {W : Type} `{Clock W}.
Variable eventOutput : EventOutputPort W.
Variable notificationService : NotificationServicePort W.

Definition eventTypes : list string :=
  [EventType.CRYPTO_UPDATE_EUR; EventType.CRYPTO_UPDATE_USD].

Definition handle (eventInbound : Event) (w : W) : Completion unit * W :=
  let '(t1, w) := now_toISOString w in
  let updateMessage :=
    ViewUpdateMessage.createViewUpdateMessage t1 (payload eventInbound) in
  let '(t2, w) := now_toISOString w in
  match NotificationUpdateMessage.createNotificationUpdateMessage t2 eventInbound with
  | Throw e => (Throw e, w)
  | Normal notificationUpdateMessage =>
      if strict_equals_string (eventType eventInbound) EventType.CRYPTO_UPDATE_EUR then
        match broadcastEUR eventOutput updateMessage w with
        | (Throw e, w) => (Throw e, w)
        | (Normal _, w) =>
            match sendNotification notificationService "eur" notificationUpdateMessage w with
            | (Throw e, w) => (Throw e, w)
            | (Normal _, w) => (Normal (), w)
            end
        end
      else if strict_equals_string (eventType eventInbound) EventType.CRYPTO_UPDATE_USD then
        match broadcastUSD eventOutput updateMessage w with
        | (Throw e, w) => (Throw e, w)
        | (Normal _, w) =>
            match sendNotification notificationService "usd" notificationUpdateMessage w with
            | (Throw e, w) => (Throw e, w)
            | (Normal _, w) => (Normal (), w)
            end
        end
      else (Normal (), w)
  end.

Definition instance (identity : nat) : EventHandler W :=
  Build_EventHandler W identity eventTypes handle.

End Handler.
End CryptoUpdateHandler.

Module UserNotificationHandler.
Section Handler.
Context `{Runtime} {W : Type}.
Variable eventOutput : EventOutputPort W.

Definition eventTypes : list string := [EventType.USER_NOTIFICATION].

(** The template literal of the default message. *)
Definition defaultMessage (cryptoId alertPrice currentPrice alertType : JsValue)
    : Completion string :=
  crypto ← toString cryptoId;
  target ← toString alertPrice;
  current ← toString currentPrice;
  Normal (crypto +:+ " price "
          +:+ (if strict_equals_string alertType "ABOVE"
               then "surpassed" else "dropped below")
          +:+ " your target of $" +:+ target
          +:+ ". Current price is $" +:+ current +:+ ".").

(** The destructuring of the payload and the choice of the message; the
    custom message is taken when it is truthy. *)
Definition notification (body : JsValue) : Completion (JsValue * JsValue) :=
  userId ← get_prop body "userId";
  cryptoId ← get_prop body "cryptoId";
  alertPrice ← get_prop body "alertPrice";
  currentPrice ← get_prop body "currentPrice";
  alertType ← get_prop body "alertType";
  message ← get_prop body "message";
  notificationMessage ←
    (if truthy message then Normal message
     else JStr <$> defaultMessage cryptoId alertPrice currentPrice alertType);
  Normal (userId, notificationMessage).

Definition handle (event : Event) (w : W) : Completion unit * W :=
  match notification (payload event) with
  | Throw e => (Throw e, w)
  | Normal (userId, notificationMessage) =>
      sendToUser eventOutput userId (JObj [("message", notificationMessage)]) w
  end.

Definition instance (identity : nat) : EventHandler W :=
  Build_EventHandler W identity eventTypes handle.

End Handler.
End UserNotificationHandler.

(** ** application/EventService.ts *)

(** What [processEvent] leaves behind; [settled] is the settlement of the
    promise it returns. *)
Record Processed (W : Type) : Type := {
  handled : list (nat * Event);
  settled : Promise unit;
  world : W
}.
Arguments handled {W} _.
Arguments settled {W} _.
Arguments world {W} _.

Module EventService.
Section Service.
Context `{Runtime} {W : Type}.

(** [validTypes.includes(v)]. *)
Definition includes (validTypes : list string) (v : JsValue) : bool :=
  match v with
  | JStr s => bool_decide (s ∈ validTypes)
  | _ => false
  end.

(** The three checks, in order; the [console.error] lines are diagnostics
    and are left out. The last check reads [payload.length] directly. *)
Definition isValidEventData (eventJson : JsValue) : Completion bool :=
  let validTypes := EventType.values in
  if negb (truthy eventJson) then Normal false
  else
    kind ← get_prop eventJson "eventType";
    if negb (includes validTypes kind) then Normal false
    else
      body ← get_prop eventJson "payload";
      len ← get_prop body "length";
      if strict_equals_zero len then Normal false
      else Normal true.

(** The request body seen through the [Event] interface. *)
Definition as_Event (eventJson : JsValue) : Event :=
  let field name :=
    match get_prop eventJson name with
    | Normal v => v
    | Throw _ => JUndefined
    end in
  {| eventType := field "eventType"; payload := field "payload" |}.

(** The constructor resolves the two handlers and builds the dispatcher
    from them, in this order. *)
Definition constructor `{Clock W} (eventOutput : EventOutputPort W)
    (notificationService : NotificationServicePort W)
    : gmap string (list (EventHandler W)) :=
  let cryptoUpdateHandler :=
    CryptoUpdateHandler.instance eventOutput notificationService 0 in
  let userNotificationHandler := UserNotificationHandler.instance eventOutput 1 in
  let handlers := [cryptoUpdateHandler; userNotificationHandler] in
  DomainEventDispatcher.constructor handlers.

Definition processEvent (eventDispatcher : gmap string (list (EventHandler W)))
    (eventJson : JsValue) (w : W) : Processed W :=
  match isValidEventData eventJson with
  | Throw e => {| handled := []; settled := Rejected e; world := w |}
  | Normal false =>
      {| handled := []; settled := Rejected (Error "Invalid event data"); world := w |}
  | Normal true =>
      let r := DomainEventDispatcher.dispatch eventDispatcher (as_Event eventJson) w in
      {| handled := invoked r;
         settled := match outcome r with
                    | Normal _ => Fulfilled ()
                    | Throw e => Rejected e
                    end;
         world := after r |}
  end.

End Service.
End EventService.

(** ** infrastructure/adapters/SocketIOAdapter.ts *)

Module SocketIOAdapter.

(** An authenticated socket: its Socket.IO id and the user id the
    middleware attached to it. *)
Record Socket : Type := { id : string; userId : string }.

(** What the adapter hands to Socket.IO: [this.io.emit(event, message)] on
    the public server, or [socket.emit(event, message)] on one socket. *)
Inductive Emission : Type :=
  | ServerEmit (event : string) (message : JsValue)
  | SocketEmit (socketId : string) (event : string) (message : JsValue).

(** What a read [this.userSocketMap[key]] finds: nothing ([undefined], or a
    member that is falsy), a socket, or a truthy value that is not a socket,
    given by what a call of its [emit] does. *)
Inductive Slot : Type :=
  | Absent
  | Bound (socket : Socket)
  | Foreign (emit : string → JsValue → Completion (list Emission)).

(** The members of a socket object belong to the Socket.IO library:
    [Socket_get socket name] is what a read of [socket[name]] finds, through
    the prototype chain of the socket, for the names the adapter does not
    use itself. *)
Class SocketClass : Type := { Socket_get : Socket → string → Slot }.

(** The names [Object.prototype] defines, its accessor [__proto__] apart.
    Each holds a function. *)
Definition Object_prototype_names : list string :=
  ["constructor"; "hasOwnProperty"; "isPrototypeOf"; "propertyIsEnumerable";
   "toLocaleString"; "toString"; "valueOf";
   "__defineGetter__"; "__defineSetter__"; "__lookupGetter__"; "__lookupSetter__"].

(** A function of [Object.prototype], or that object itself: truthy, and
    with no [emit] to call, so that [value.emit(...)] is a TypeError. *)
Definition not_a_socket : Slot := Foreign (λ _ _, Throw TypeError).

(** A string as the value of a member: falsy when empty, and otherwise a
    truthy value with no [emit] to call. *)
Definition string_member (s : string) : Slot :=
  if bool_decide (s = "") then Absent else not_a_socket.

(** [socket[name]]. The adapter itself uses three members of a socket:
    [id] and [userId] hold strings and [emit] holds a function. *)
Definition Socket_read `{SocketClass} (socket : Socket) (name : string) : Slot :=
  if bool_decide (name = "id") then string_member (id socket)
  else if bool_decide (name = "userId") then string_member (userId socket)
  else if bool_decide (name = "emit") then not_a_socket
  else Socket_get socket name.

(** [userSocketMap: Record<string, Socket> = {}] is a plain object: the own
    properties the adapter stored, and the prototype behind them, which is
    [Object.prototype] ([None]) until an assignment under [__proto__] puts a
    socket in its place. *)
Record Table : Type := {
  entries : gmap string Socket;
  prototype : option Socket
}.

(** The object literal [{}]. *)
Definition Table_empty : Table := {| entries := ∅; prototype := None |}.

(** [table[key]]. The name [__proto__] is the accessor of
    [Object.prototype] and reads the prototype; any other name reads the
    own property and, when there is none, goes on to the prototype. *)
Definition Table_get `{SocketClass} (table : Table) (key : string) : Slot :=
  if bool_decide (key = "__proto__") then
    match prototype table with
    | Some socket => Bound socket
    | None => not_a_socket
    end
  else
    match entries table !! key with
    | Some socket => Bound socket
    | None =>
        match prototype table with
        | Some socket => Socket_read socket key
        | None =>
            if bool_decide (key ∈ Object_prototype_names) then not_a_socket
            else Absent
        end
    end.

(** [table[key] = socket]. Under [__proto__] the accessor makes the socket
    the prototype of the table and no own property is made; under any other
    name the own property is made or overwritten (the members of
    [Object.prototype] accept assignment; those of a socket are taken to
    accept it as well). *)
Definition Table_set (table : Table) (key : string) (socket : Socket) : Table :=
  if bool_decide (key = "__proto__")
  then {| entries := entries table; prototype := Some socket |}
  else {| entries := <[key := socket]> (entries table); prototype := prototype table |}.

(** [Reflect.deleteProperty(table, key)] removes the own property of the
    name, if there is one, and never the prototype. *)
Definition Reflect_deleteProperty (table : Table) (key : string) : Table :=
  {| entries := delete key (entries table); prototype := prototype table |}.

(** The mutable fields of the adapter. *)
Record t : Type := {
  isInitialized : bool;
  userSocketMap : Table
}.

(** The field initialisers, before the constructor body runs. *)
Definition fresh : t := {| isInitialized := false; userSocketMap := Table_empty |}.

(** [initialize] opens both servers once; of its effects the fields keep
    the flag. *)
Definition initialize (a : t) : t :=
  if negb (isInitialized a)
  then {| isInitialized := true; userSocketMap := userSocketMap a |}
  else a.

Definition constructor : t := initialize fresh.

(** What the middleware tells Socket.IO: [next()] after attaching the
    user id, or [next(error)]. *)
Inductive Admission : Type :=
  | Accepted (userId : string)
  | Refused (error : JsError).

Section Admission.
Context `{SocketClass}.
(** [cookie.parse] of the cookie package. *)
Variable cookie_parse : string → gmap string string.
(** The awaited [authService.validateToken]: a user id, [null], or a
    rejection. *)
Variable validateToken : string → Completion (option string).

(** The middleware of the authenticated server, on the cookie header of
    the handshake ([None] when the header is missing). The diagnostic of
    the [catch] is left out. *)
Definition authenticate (cookieHeader : option string) : Admission :=
  match cookieHeader with
  | None => Refused (Error "No cookies provided")
  | Some header =>
      if bool_decide (header = "") then Refused (Error "No cookies provided")
      else
        let cookies := cookie_parse header in
        match cookies !! "authToken" with
        | None => Refused (Error "No authToken provided in cookies")
        | Some authToken =>
            if bool_decide (authToken = "")
            then Refused (Error "No authToken provided in cookies")
            else
              match validateToken authToken with
              | Normal (Some validatedUserId) => Accepted validatedUserId
              | Normal None => Refused (Error "Unauthorized")
              | Throw _ => Refused (Error "Unauthorized")
              end
        end
  end.

(** The [connection] handler of the authenticated server:
    [this.userSocketMap[userId] = socket]. *)
Definition on_connection (a : t) (socket : Socket) : t :=
  {| isInitialized := isInitialized a;
     userSocketMap := Table_set (userSocketMap a) (userId socket) socket |}.

(** The [disconnect] handler registered for [socket]. A value the read
    finds that is not a socket is inherited, whatever its [id]: the table
    has no own property of the name for [Reflect.deleteProperty] to
    remove. *)
Definition on_disconnect (a : t) (socket : Socket) : t :=
  match Table_get (userSocketMap a) (userId socket) with
  | Bound mappedSocket =>
      if bool_decide (id mappedSocket = id socket)
      then {| isInitialized := isInitialized a;
              userSocketMap := Reflect_deleteProperty (userSocketMap a) (userId socket) |}
      else a
  | Foreign _ => a
  | Absent => a
  end.

(** A connection attempt on the authenticated server: the middleware,
    then, when it admits, the connection handler on the new socket. *)
Definition connect (a : t) (cookieHeader : option string) (socketId : string)
    : Admission * t :=
  match authenticate cookieHeader with
  | Accepted validatedUserId =>
      (Accepted validatedUserId,
       on_connection a {| id := socketId; userId := validatedUserId |})
  | Refused e => (Refused e, a)
  end.

(** The life of the authenticated server: connection attempts and
    disconnections, one after the other. *)
Inductive Lifecycle : Type :=
  | Connect (cookieHeader : option string) (socketId : string)
  | Disconnect (socket : Socket).

Definition step (a : t) (ev : Lifecycle) : t :=
  match ev with
  | Connect cookieHeader socketId => (connect a cookieHeader socketId).2
  | Disconnect socket => on_disconnect a socket
  end.

Definition run (evs : list Lifecycle) : t := foldl step constructor evs.

End Admission.

Section Delivery.
Context `{Runtime} `{SocketClass}.

Definition broadcastEUR (a : t) (messageJson : JsValue) : Completion (list Emission) :=
  if negb (isInitialized a) then Throw (Error "SocketIOAdapter not initialized")
  else Normal [ServerEmit "broadcastEUR" messageJson].

Definition broadcastUSD (a : t) (messageJson : JsValue) : Completion (list Emission) :=
  if negb (isInitialized a) then Throw (Error "SocketIOAdapter not initialized")
  else Normal [ServerEmit "broadcastUSD" messageJson].

(** The key of [this.userSocketMap[userId]] is the string the user id
    converts to. Whatever truthy value the read finds has its [emit]
    called. *)
Definition sendToUser (a : t) (userId : JsValue) (messageJson : JsValue)
    : Completion (list Emission) :=
  if negb (isInitialized a) then Throw (Error "SocketIOAdapter not initialized")
  else
    key ← toString userId;
    match Table_get (userSocketMap a) key with
    | Bound userSocket =>
        Normal [SocketEmit (id userSocket) "user-specific-event" messageJson]
    | Foreign emit => emit "user-specific-event" messageJson
    | Absent => Normal []
    end.

End Delivery.
End SocketIOAdapter.

(** ** infrastructure/adapters/NotificationAdapter.ts *)

Module NotificationAdapter.

(** What the adapter leaves behind: the calls of [axios.post] and the
    errors written with [console.error]. *)
Record Relay : Type := {
  requests : list (string * JsValue);
  console : list JsError
}.

Section Adapter.
Variable baseUrl : string.
(** [axios.post(url, body)]: it throws, or returns a promise that is
    fulfilled or rejected. *)
Variable axios_post : string → JsValue → Completion (Promise unit).

(** The settlement of the promise of the [async] method: the [try]
    covers the call and the [await], the [catch] logs. *)
Definition sendNotification (currency : string) (messageJson : JsValue)
    (r : Relay) : Promise unit * Relay :=
  let url := baseUrl +:+ "/data?currency=" +:+ currency in
  let sent := requests r ++ [(url, messageJson)] in
  match axios_post url messageJson with
  | Normal (Fulfilled _) =>
      (Fulfilled (), {| requests := sent; console := console r |})
  | Normal (Rejected error) | Throw error =>
      (Fulfilled (), {| requests := sent; console := console r ++ [error] |})
  end.

End Adapter.

(** [process.env.NAME || fallback]: the fallback is taken when the variable
    is unset and also when it is the empty string. *)
Definition env_or (env : string → option string) (name fallback : string) : string :=
  match env name with
  | Some value => if bool_decide (value = "") then fallback else value
  | None => fallback
  end.

(** The constructor computes [baseUrl] from the environment. *)
Definition constructor (env : string → option string) : string :=
  let notificationServiceName := env_or env "NOTIFICATION_SERVICE_NAME" "notification" in
  let notificationServicePort := env_or env "NOTIFICATION_SERVICE_PORT" "3000" in
  "http://" +:+ notificationServiceName +:+ ":" +:+ notificationServicePort.

End NotificationAdapter.

(** ** infrastructure/adapters/EventAdapter.ts *)

Module EventAdapter.

(** What a route handler sends: [res.status(code).json(body)]. *)
Record Response : Type := { status : nat; json : JsValue }.

(** What serving a request leaves behind: the response, the handler
    invocations made on the way, and the world after. *)
Record Served (W : Type) : Type := {
  response : Response;
  ran : list (nat * Event);
  left : W
}.
Arguments response {W} _.
Arguments ran {W} _.
Arguments left {W} _.

(** The response of the [catch] of both routes; its diagnostic is left
    out. *)
Definition internalServerError : Response :=
  {| status := 500; json := JObj [("error", JStr "Internal Server Error")] |}.

Section Routes.
Context {W : Type}.
(** [eventInput.processEvent] of the input port. *)
Variable processEvent : JsValue → W → Processed W.

(** POST /realtime/events/notifyUser, on the request body ([undefined]
    when the request carried none). *)
Definition handleNotifyUser (body : JsValue) (w : W) : Served W :=
  match (userId ← get_prop body "userId";
         cryptoId ← get_prop body "cryptoId";
         alertPrice ← get_prop body "alertPrice";
         currentPrice ← get_prop body "currentPrice";
         alertType ← get_prop body "alertType";
         message ← get_prop body "message";
         Normal (userId, cryptoId, alertPrice, currentPrice, alertType, message)) with
  | Throw _ => {| response := internalServerError; ran := []; left := w |}
  | Normal (userId, cryptoId, alertPrice, currentPrice, alertType, message) =>
      if negb (truthy userId) then
        {| response :=
             {| status := 400;
                json := JObj [("error", JStr "Bad Request: userId is required")] |};
           ran := []; left := w |}
      else
        let event :=
          JObj [("eventType", JStr EventType.USER_NOTIFICATION);
                ("payload",
                 JObj [("userId", userId); ("cryptoId", cryptoId);
                       ("alertPrice", alertPrice); ("currentPrice", currentPrice);
                       ("alertType", alertType); ("message", message)])] in
        let p := processEvent event w in
        {| response :=
             match settled p with
             | Fulfilled _ =>
                 {| status := 200;
                    json := JObj [("status", JStr "Notification event processed")] |}
             | Rejected _ => internalServerError
             end;
           ran := handled p; left := world p |}
  end.

(** POST /realtime/events/cryptomarketdata: the body goes to the input
    port as it came. *)
Definition handleEvent (body : JsValue) (w : W) : Served W :=
  let p := processEvent body w in
  {| response :=
       match settled p with
       | Fulfilled _ => {| status := 200; json := JObj [("status", JStr "Event processed")] |}
       | Rejected _ => internalServerError
       end;
     ran := handled p; left := world p |}.

End Routes.
End EventAdapter.

(** ** The ports as the two adapters implement them *)

Module Production.

(** The world of the running service: the socket adapter, what it has
    emitted, the relay adapter, and the reads of the clock so far. *)
Record World : Type := {
  sockets : SocketIOAdapter.t;
  emitted : list SocketIOAdapter.Emission;
  relay : NotificationAdapter.Relay;
  ticks : nat
}.

Section Wiring.
Context `{Runtime} `{SocketIOAdapter.SocketClass}.
Variable clock : nat → string.
Variable baseUrl : string.
Variable axios_post : string → JsValue → Completion (Promise unit).

#[local] Instance World_clock : Clock World := {|
  now_toISOString w :=
    (clock (ticks w),
     {| sockets := sockets w; emitted := emitted w; relay := relay w;
        ticks := S (ticks w) |})
|}.

(** A delivery method of the socket adapter, run in the world. *)
Definition deliver
    (method : SocketIOAdapter.t → Completion (list SocketIOAdapter.Emission))
    (w : World) : Completion unit * World :=
  match method (sockets w) with
  | Throw e => (Throw e, w)
  | Normal out =>
      (Normal (),
       {| sockets := sockets w; emitted := emitted w ++ out; relay := relay w;
          ticks := ticks w |})
  end.

Definition eventOutput : EventOutputPort World := {|
  sendToUser userId messageJson :=
    deliver (λ a, SocketIOAdapter.sendToUser a userId messageJson);
  broadcastEUR messageJson :=
    deliver (λ a, SocketIOAdapter.broadcastEUR a messageJson);
  broadcastUSD messageJson :=
    deliver (λ a, SocketIOAdapter.broadcastUSD a messageJson)
|}.

Definition notificationService : NotificationServicePort World := {|
  sendNotification currency messageJson w :=
    let '(promise, r) :=
      NotificationAdapter.sendNotification baseUrl axios_post currency messageJson
        (relay w) in
    (Normal promise,
     {| sockets := sockets w; emitted := emitted w; relay := r; ticks := ticks w |})
|}.

Definition eventService : gmap string (list (EventHandler World)) :=
  EventService.constructor eventOutput notificationService.

End Wiring.
End Production.

(** ** A recorder of port calls

    Ports that accept every call and keep the calls they received, in the
    manner of the mock output port of the test suite. *)

Module Recorder.

Inductive PortCall : Type :=
  | BroadcastEUR (messageJson : JsValue)
  | BroadcastUSD (messageJson : JsValue)
  | SendToUser (userId : JsValue) (data : JsValue)
  | SendNotification (currency : string) (messageJson : JsValue).

Record t : Type := { calls : list PortCall; reads : nat }.

Definition record (c : PortCall) (w : t) : t :=
  {| calls := calls w ++ [c]; reads := reads w |}.

Section Ports.
Variable clock : nat → string.

#[local] Instance t_clock : Clock t := {|
  now_toISOString w := (clock (reads w), {| calls := calls w; reads := S (reads w) |})
|}.

Definition eventOutput : EventOutputPort t := {|
  sendToUser userId data w := (Normal (), record (SendToUser userId data) w);
  broadcastEUR messageJson w := (Normal (), record (BroadcastEUR messageJson) w);
  broadcastUSD messageJson w := (Normal (), record (BroadcastUSD messageJson) w)
|}.

Definition notificationService : NotificationServicePort t := {|
  sendNotification currency messageJson w :=
    (Normal (Fulfilled ()), record (SendNotification currency messageJson) w)
|}.

(** The two handlers and the service on the recording ports. *)
Definition cryptoUpdateHandler : Event → t → Completion unit * t :=
  CryptoUpdateHandler.handle eventOutput notificationService.

Definition userNotificationHandler `{Runtime} : Event → t → Completion unit * t :=
  UserNotificationHandler.handle eventOutput.

Definition eventService `{Runtime} : gmap string (list (EventHandler t)) :=
  EventService.constructor eventOutput notificationService.

End Ports.
End Recorder.

(** ** Vocabulary of the specification *)

(** Registration order in the words of the specification: the handlers in
    the order they are passed in, then the declared kinds of each in their
    order. *)
Definition registrations {W : Type} (handlers : list (EventHandler W))
    : list (string * EventHandler W) :=
  handler ← handlers; (λ kind, (kind, handler)) <$> eventTypes handler.

(** The registrations of one kind, in registration order. *)
Definition registered_for {W : Type} (kind : string)
    (handlers : list (EventHandler W)) : list (EventHandler W) :=
  (filter (λ r, r.1 = kind) (registrations handlers)).*2.

(** The world the handlers of a list leave when they are called one after
    the other on an event, each in the world the one before left, and all
    of them return; [None] when one of them throws. *)
Fixpoint all_return {W : Type} (hs : list (EventHandler W)) (event : Event) (w : W)
    : option W :=
  match hs with
  | [] => Some w
  | h :: rest =>
      match handle h event w with
      | (Normal _, w1) => all_return rest event w1
      | (Throw _, _) => None
      end
  end.


Definition NoHandlerForKind (kind : string) : JsError :=
  Error ("No handler found for event type: " +:+ kind).

Definition MissingCredential (r : SocketIOAdapter.Admission) : Prop :=
  r = SocketIOAdapter.Refused (Error "No cookies provided")
  ∨ r = SocketIOAdapter.Refused (Error "No authToken provided in cookies").

Definition Unauthorized (r : SocketIOAdapter.Admission) : Prop :=
  r = SocketIOAdapter.Refused (Error "Unauthorized").

(** A record of the payload and its projection to id, symbol and price. *)
Definition projection_of (record projected : JsValue) : Prop :=
  ∃ props, record = JObj props
    ∧ projected = JObj [("id", own_property props "id");
                        ("symbol", own_property props "symbol");
                        ("price", own_property props "price")].

(** The part of the world that the relay adapter does not own. *)
Definition outside_relay (w : Production.World)
    : SocketIOAdapter.t * list SocketIOAdapter.Emission * nat :=
  (Production.sockets w, Production.emitted w, Production.ticks w).

(** Two handlers agree up to the relay: from worlds that agree outside the
    relay they end alike, in worlds that agree outside the relay. *)
Definition agree_up_to_relay (event : Event) (h h' : EventHandler Production.World) : Prop :=
  hid h = hid h'
  ∧ ∀ w w', outside_relay w = outside_relay w' →
      (handle h event w).1 = (handle h' event w').1
      ∧ outside_relay (handle h event w).2 = outside_relay (handle h' event w').2.

(** The values that are neither arrays nor objects. *)
Definition primitive (v : JsValue) : bool :=
  match v with
  | JArr _ | JObj _ => false
  | _ => true
  end.

(** [null] and [undefined]. *)
Definition nullish (v : JsValue) : bool :=
  match v with
  | JUndefined | JNull => true
  | _ => false
  end.

(** A lifecycle event that concerns a user: a connection attempt admitted
    as that user, or the disconnection of one of the user's sockets. *)
Definition concerns (cookie_parse : string → gmap string string)
    (validateToken : string → Completion (option string))
    (ev : SocketIOAdapter.Lifecycle) (user : string) : Prop :=
  match ev with
  | SocketIOAdapter.Connect cookieHeader _ =>
      SocketIOAdapter.authenticate cookie_parse validateToken cookieHeader
      = SocketIOAdapter.Accepted user
  | SocketIOAdapter.Disconnect socket => SocketIOAdapter.userId socket = user
  end.

(** A lifecycle event that puts a socket in the place of the prototype of
    the table: a connection attempt admitted under the user id
    [__proto__]. *)
Definition rebases (cookie_parse : string → gmap string string)
    (validateToken : string → Completion (option string))
    (ev : SocketIOAdapter.Lifecycle) : Prop :=
  match ev with
  | SocketIOAdapter.Connect cookieHeader _ =>
      SocketIOAdapter.authenticate cookie_parse validateToken cookieHeader
      = SocketIOAdapter.Accepted "__proto__"
  | SocketIOAdapter.Disconnect _ => False
  end.

(** A run time for the examples: integers print in decimal. *)
Definition sample_runtime : Runtime :=
  {| number_to_string q := pretty (Qnum (this q)) |}.

(** A socket class for the examples: beside its id, its user id and its
    [emit], a socket shows the members of [Object.prototype], none of which
    is a socket. *)
Definition sample_sockets : SocketIOAdapter.SocketClass :=
  {| SocketIOAdapter.Socket_get socket name :=
       if bool_decide (name ∈ SocketIOAdapter.Object_prototype_names)
       then SocketIOAdapter.not_a_socket
       else SocketIOAdapter.Absent |}.

(** ** Sample inputs *)

Module Sample.

(** Handlers over a world that keeps the marks they leave: a handler that
    returns and a handler that throws. *)
Definition quiet (identity : nat) (kinds : list string) : EventHandler (list nat) :=
  {| hid := identity; eventTypes := kinds;
     handle := λ _ w, (Normal (), w ++ [identity]) |}.

Definition throwing (identity : nat) (kinds : list string) : EventHandler (list nat) :=
  {| hid := identity; eventTypes := kinds;
     handle := λ _ w, (Throw (Error "handler failed"), w ++ [identity]) |}.

Definition eurEvent : Event :=
  {| eventType := JStr EventType.CRYPTO_UPDATE_EUR;
     payload := JArr [JObj [("id", JStr "bitcoin"); ("symbol", JStr "btc")]] |}.

Definition eurEventJson : JsValue :=
  JObj [("eventType", eventType eurEvent); ("payload", payload eurEvent)].

(** A cookie parser that knows three headers, and an auth service that
    accepts one token, returns [null] for a second and fails on any
    other. *)
Definition cookie_parse (header : string) : gmap string string :=
  if bool_decide (header = "authToken=good") then {["authToken" := "good"]}
  else if bool_decide (header = "authToken=bad") then {["authToken" := "bad"]}
  else if bool_decide (header = "authToken=broken") then {["authToken" := "broken"]}
  else ∅.

Definition validateToken (token : string) : Completion (option string) :=
  if bool_decide (token = "good") then Normal (Some "testUser")
  else if bool_decide (token = "bad") then Normal None
  else Throw (Error "auth service unreachable").

Definition first : SocketIOAdapter.Socket :=
  {| SocketIOAdapter.id := "socket-1"; SocketIOAdapter.userId := "testUser" |}.

Definition second : SocketIOAdapter.Socket :=
  {| SocketIOAdapter.id := "socket-2"; SocketIOAdapter.userId := "testUser" |}.

(** The world of the service right after start-up, and a relay that is
    down. *)
Definition started : Production.World :=
  {| Production.sockets := SocketIOAdapter.constructor;
     Production.emitted := [];
     Production.relay := {| NotificationAdapter.requests := [];
                            NotificationAdapter.console := [] |};
     Production.ticks := 0 |}.

Definition relay_down (url : string) (body : JsValue) : Completion (Promise unit) :=
  Normal (Rejected (Error "connect ECONNREFUSED")).

End Sample.

(** * Properties *)

(** ** The dispatcher *)

Section DispatcherFacts.
Context `{Runtime} {W : Type}.
Implicit Types (handlers : list (EventHandler W)) (m : gmap string (list (EventHandler W))).

Lemma register_lookup (h : EventHandler W) m (k k' : string) :
  DomainEventDispatcher.register h m k !! k'
  = if decide (k = k') then Some (default [] (m !! k) ++ [h]) else m !! k'.
Proof.
  unfold DomainEventDispatcher.register.
  destruct (m !! k) as [l|] eqn:Hk; simpl.
  - rewrite Hk, lookup_insert. reflexivity.
  - rewrite lookup_insert_eq, lookup_insert.
    destruct (decide (k = k')) as [->|Hne]; [done|].
    by rewrite lookup_insert_ne.
Qed.

(** The nested loops of the constructor visit the registrations in
    registration order. *)
Lemma constructor_foldl handlers :
  DomainEventDispatcher.constructor handlers
  = foldl (λ m r, DomainEventDispatcher.register r.2 m r.1) ∅ (registrations handlers).
Proof.
  unfold DomainEventDispatcher.constructor, registrations.
  generalize (∅ : gmap string (list (EventHandler W))).
  induction handlers as [|h hs IH]; intros m; [done|].
  cbn [foldl mbind list_bind]. rewrite foldl_app, IH. f_equal.
  generalize (eventTypes h). clear. intros ks. revert m.
  induction ks as [|k ks IH]; intros m; [done|]. simpl. apply IH.
Qed.

Lemma foldl_register_lookup (regs : list (string * EventHandler W)) (k : string) :
  foldl (λ m r, DomainEventDispatcher.register r.2 m r.1) ∅ regs !! k
  = match (filter (λ r, r.1 = k) regs).*2 with
    | [] => None
    | l => Some l
    end.
Proof.
  induction regs as [|[k' h] regs IH] using rev_ind; [done|].
  rewrite foldl_app. simpl. rewrite register_lookup, IH.
  rewrite filter_app, fmap_app. rewrite filter_cons, filter_nil. simpl.
  destruct (decide (k' = k)) as [->|Hne].
  - rewrite IH. destruct ((filter (λ r, r.1 = k) regs).*2); simpl; [done|done].
  - simpl. rewrite app_nil_r. done.
Qed.

(** The map the constructor builds holds, under each kind, the handlers
    registered for it in registration order, and no empty list. *)
Lemma constructor_lookup handlers (k : string) :
  DomainEventDispatcher.constructor handlers !! k
  = match registered_for k handlers with
    | [] => None
    | l => Some l
    end.
Proof. rewrite constructor_foldl. apply foldl_register_lookup. Qed.

Lemma constructor_unregistered handlers (k : string) :
  registered_for k handlers = [] →
  DomainEventDispatcher.constructor handlers !! k = None.
Proof. intros Hk. by rewrite constructor_lookup, Hk. Qed.

Lemma elem_of_registered_for handlers (k : string) (h : EventHandler W) :
  h ∈ registered_for k handlers ↔ h ∈ handlers ∧ k ∈ eventTypes h.
Proof.
  unfold registered_for, registrations. rewrite list_elem_of_fmap. split.
  - intros [[k' h'] [-> Hin]]. apply list_elem_of_filter in Hin as [Hk Hin].
    simpl in *. subst k'. apply list_elem_of_bind in Hin as [h0 [Hin Hh0]].
    apply list_elem_of_fmap in Hin as [k0 [Heq Hk0]]. by simplify_eq.
  - intros [Hh Hk]. exists (k, h). split; [done|].
    apply list_elem_of_filter. split; [done|].
    apply list_elem_of_bind. exists h. split; [|done].
    apply list_elem_of_fmap. by exists k.
Qed.
End DispatcherFacts.

Section ForEach.
Context {W : Type}.
Implicit Types (hs : list (EventHandler W)) (event : Event) (w : W).

Lemma forEach_prefix hs event w :
  invoked (DomainEventDispatcher.forEach_handle hs event w)
    `prefix_of` (λ h, (hid h, event)) <$> hs.
Proof.
  revert w. induction hs as [|h hs IH]; intros w; simpl; [done|].
  destruct (handle h event w) as [[[]|e] w1]; simpl.
  - apply prefix_cons, IH.
  - apply prefix_cons, prefix_nil.
Qed.

Lemma forEach_normal hs event w :
  outcome (DomainEventDispatcher.forEach_handle hs event w) = Normal () →
  invoked (DomainEventDispatcher.forEach_handle hs event w) = (λ h, (hid h, event)) <$> hs.
Proof.
  revert w. induction hs as [|h hs IH]; intros w; simpl; [done|].
  destruct (handle h event w) as [[[]|e] w1]; simpl; [|done].
  intros Hn. f_equal. by apply IH.
Qed.

Lemma forEach_no_throw hs event w :
  (∀ h w', h ∈ hs → (handle h event w').1 = Normal ()) →
  outcome (DomainEventDispatcher.forEach_handle hs event w) = Normal ().
Proof.
  revert w. induction hs as [|h hs IH]; intros w Hall; simpl; [done|].
  pose proof (Hall h w (list_elem_of_here _ _)) as Hh.
  destruct (handle h event w) as [[[]|e] w1]; simpl in *; [|done].
  apply IH. intros h' w' Hin. apply Hall. by apply list_elem_of_further.
Qed.

Lemma forEach_throw hs event w e :
  outcome (DomainEventDispatcher.forEach_handle hs event w) = Throw e →
  ∃ before h later w',
    hs = before ++ h :: later
    ∧ invoked (DomainEventDispatcher.forEach_handle hs event w)
      = (λ h, (hid h, event)) <$> (before ++ [h])
    ∧ (handle h event w').1 = Throw e.
Proof.
  revert w. induction hs as [|h hs IH]; intros w; simpl; [done|].
  destruct (handle h event w) as [[[]|e'] w1] eqn:Hh; simpl.
  - intros Ht. destruct (IH _ Ht) as (before & h' & later & w' & -> & Hinv & Hthrow).
    exists (h :: before), h', later, w'. rewrite Hinv. done.
  - intros [= ->]. exists [], h, hs, w. by rewrite Hh.
Qed.

Lemma forEach_all_return hs event w w' :
  all_return hs event w = Some w' →
  DomainEventDispatcher.forEach_handle hs event w
  = {| invoked := (λ h, (hid h, event)) <$> hs; outcome := Normal (); after := w' |}.
Proof.
  revert w. induction hs as [|h hs IH]; intros w; simpl.
  - by intros [= ->].
  - destruct (handle h event w) as [[[]|e] w1]; [|done].
    intros Hrest. by rewrite (IH _ Hrest).
Qed.

Lemma forEach_stops before h later event w w1 e w2 :
  all_return before event w = Some w1 →
  handle h event w1 = (Throw e, w2) →
  DomainEventDispatcher.forEach_handle (before ++ h :: later) event w
  = {| invoked := (λ h, (hid h, event)) <$> (before ++ [h]);
       outcome := Throw e; after := w2 |}.
Proof.
  revert w. induction before as [|h' before IH]; intros w; simpl.
  - intros [= ->] Hh. by rewrite Hh.
  - destruct (handle h' event w) as [[[]|e'] w']; [|done].
    intros Hrest Hh. by rewrite (IH _ Hrest Hh).
Qed.
End ForEach.

(** C1 (amended). For every list of handlers passed to the constructor and
    every event whose kind has at least one registration, [dispatch] invokes
    the handlers registered for that kind in registration order, from the
    first on, once per registration and each with the same event; it invokes
    all of them when it returns normally, which it does when none of them
    throws, leaving the world the last of them left; when the handlers
    before one have returned and that one throws, [dispatch] ends there:
    it has invoked the handlers up to and including that one and none of
    the later ones, the exception it threw leaves [dispatch], and the world
    is the one it left; a [dispatch] that throws has stopped in this way;
    no handler is invoked that does not declare the kind. *)
Theorem dispatch_registered_in_order `{Runtime} {W : Type}
    (handlers : list (EventHandler W)) (event : Event) (kind : string) (w : W) :
  eventType event = JStr kind →
  registered_for kind handlers ≠ [] →
  let r := DomainEventDispatcher.dispatch
             (DomainEventDispatcher.constructor handlers) event w in
  let due := (λ h, (hid h, event)) <$> registered_for kind handlers in
  invoked r `prefix_of` due
  ∧ (outcome r = Normal () → invoked r = due)
  ∧ ((∀ h w', h ∈ registered_for kind handlers → (handle h event w').1 = Normal ()) →
     outcome r = Normal () ∧ invoked r = due)
  ∧ (∀ e, outcome r = Throw e →
     ∃ before h later w',
       registered_for kind handlers = before ++ h :: later
       ∧ invoked r = (λ h, (hid h, event)) <$> (before ++ [h])
       ∧ (handle h event w').1 = Throw e)
  ∧ (∀ i, i ∈ (invoked r).*1 → ∃ h, h ∈ handlers ∧ hid h = i ∧ kind ∈ eventTypes h)
  ∧ (∀ w', all_return (registered_for kind handlers) event w = Some w' →
     r = {| invoked := due; outcome := Normal (); after := w' |})
  ∧ (∀ before h later w1 e w2,
       registered_for kind handlers = before ++ h :: later →
       all_return before event w = Some w1 →
       handle h event w1 = (Throw e, w2) →
       r = {| invoked := (λ h, (hid h, event)) <$> (before ++ [h]);
              outcome := Throw e; after := w2 |}).
Proof.
  intros Hkind Hsome r due. subst r due.
  unfold DomainEventDispatcher.dispatch, DomainEventDispatcher.Map_get.
  rewrite Hkind, constructor_lookup.
  destruct (registered_for kind handlers) as [|h0 hs0] eqn:Hreg; [done|].
  cbv beta iota.
  split; [apply forEach_prefix|].
  split; [apply forEach_normal|].
  split.
  { intros Hall. assert (Hn := forEach_no_throw (h0 :: hs0) event w Hall).
    split; [done|]. by apply forEach_normal. }
  split; [intros e; apply forEach_throw|].
  split.
  { intros i Hi. apply list_elem_of_fmap in Hi as [[i' ev] [-> Hin]]. simpl.
    pose proof (forEach_prefix (h0 :: hs0) event w) as [rest Hpre].
    assert (Hin' : (i', ev) ∈ (λ h, (hid h, event)) <$> (h0 :: hs0)).
    { rewrite Hpre. apply elem_of_app. by left. }
    apply list_elem_of_fmap in Hin' as [h [[= -> ->] Hh]].
    rewrite <- Hreg in Hh. apply elem_of_registered_for in Hh as [? ?]. eauto. }
  split.
  - intros w'. apply forEach_all_return.
  - intros before h later w1 e w2 Hsplit Hbefore Hh.
    rewrite Hsplit. by apply (forEach_stops before h later event w w1 e w2).
Qed.

(** Witness of C1: two handlers that return, both registered for the EUR
    kind, the second also for the USD kind; then the same with a handler
    that throws registered between them, where the dispatch stops. *)
Lemma dispatch_registered_in_order_witness :
  let handlers := [Sample.quiet 0 [EventType.CRYPTO_UPDATE_EUR];
                   Sample.quiet 1 [EventType.CRYPTO_UPDATE_USD; EventType.CRYPTO_UPDATE_EUR];
                   Sample.quiet 2 [EventType.USER_NOTIFICATION]] in
  let r := @DomainEventDispatcher.dispatch sample_runtime _
             (DomainEventDispatcher.constructor handlers) Sample.eurEvent [] in
  let failing := [Sample.quiet 0 [EventType.CRYPTO_UPDATE_EUR];
                  Sample.throwing 3 [EventType.CRYPTO_UPDATE_EUR];
                  Sample.quiet 1 [EventType.CRYPTO_UPDATE_USD; EventType.CRYPTO_UPDATE_EUR]] in
  let r' := @DomainEventDispatcher.dispatch sample_runtime _
              (DomainEventDispatcher.constructor failing) Sample.eurEvent [] in
  outcome r = Normal () ∧ (invoked r).*1 = [0; 1]
  ∧ r' = {| invoked := [(0, Sample.eurEvent); (3, Sample.eurEvent)];
            outcome := Throw (Error "handler failed"); after := [0; 3] |}.
Proof.
  intros handlers r failing r'.
  destruct (@dispatch_registered_in_order sample_runtime _ handlers Sample.eurEvent
              EventType.CRYPTO_UPDATE_EUR [] eq_refl) as (_ & _ & Hall & _).
  { vm_compute. discriminate. }
  destruct (@dispatch_registered_in_order sample_runtime _ failing Sample.eurEvent
              EventType.CRYPTO_UPDATE_EUR [] eq_refl) as (_ & _ & _ & _ & _ & _ & Hstops).
  { vm_compute. discriminate. }
  destruct Hall as [Hn Hi].
  { intros h w' [Hin _]%elem_of_registered_for. unfold handlers in Hin.
    repeat (apply elem_of_cons in Hin as [->|Hin]; [reflexivity|]).
    by apply elem_of_nil in Hin. }
  split; [exact Hn|]. split; [unfold r; rewrite Hi; vm_compute; reflexivity|].
  exact (Hstops [Sample.quiet 0 [EventType.CRYPTO_UPDATE_EUR]]
           (Sample.throwing 3 [EventType.CRYPTO_UPDATE_EUR])
           [Sample.quiet 1 [EventType.CRYPTO_UPDATE_USD; EventType.CRYPTO_UPDATE_EUR]]
           [0] (Error "handler failed") [0; 3] eq_refl eq_refl eq_refl).
Defined.

(** Counterexample to C1 as stated: two handlers registered for the EUR
    kind, the first of which throws; the second is never invoked. *)
Lemma dispatch_stops_at_throwing_handler :
  let handlers := [Sample.throwing 0 [EventType.CRYPTO_UPDATE_EUR];
                   Sample.quiet 1 [EventType.CRYPTO_UPDATE_EUR]] in
  let r := @DomainEventDispatcher.dispatch sample_runtime _
             (DomainEventDispatcher.constructor handlers) Sample.eurEvent [] in
  hid <$> registered_for EventType.CRYPTO_UPDATE_EUR handlers = [0; 1]
  ∧ (invoked r).*1 = [0]
  ∧ (invoked r).*1 ≠ hid <$> registered_for EventType.CRYPTO_UPDATE_EUR handlers
  ∧ outcome r = Throw (Error "handler failed").
Proof. vm_compute. repeat split; done. Qed.

(** C5. For every event whose kind has no registered handler, the list of
    the kind being absent or empty, [dispatch] throws the no-handler error
    naming the kind, invokes no handler and leaves the world as it was; the
    error is not swallowed on the way out: the promise of [processEvent]
    rejects with it. *)
Theorem dispatch_without_handler `{Runtime} {W : Type}
    (m : gmap string (list (EventHandler W))) (event : Event) (kind : string) (w : W) :
  eventType event = JStr kind →
  m !! kind = None ∨ m !! kind = Some [] →
  DomainEventDispatcher.dispatch m event w
  = {| invoked := []; outcome := Throw (NoHandlerForKind kind); after := w |}
  ∧ (∀ eventJson,
       EventService.isValidEventData eventJson = Normal true →
       EventService.as_Event eventJson = event →
       EventService.processEvent m eventJson w
       = {| handled := []; settled := Rejected (NoHandlerForKind kind); world := w |}).
Proof.
  intros Hkind Hnone.
  assert (Hd : DomainEventDispatcher.dispatch m event w
               = {| invoked := []; outcome := Throw (NoHandlerForKind kind); after := w |}).
  { unfold DomainEventDispatcher.dispatch, DomainEventDispatcher.Map_get.
    rewrite Hkind. by destruct Hnone as [-> | ->]. }
  split; [exact Hd|].
  intros eventJson Hvalid Hev. unfold EventService.processEvent.
  rewrite Hvalid, Hev, Hd. reflexivity.
Qed.

(** Witness of C5: a dispatcher holding a handler of the USD kind only,
    given an event of the EUR kind. *)
Lemma dispatch_without_handler_witness :
  @DomainEventDispatcher.dispatch sample_runtime _
    (DomainEventDispatcher.constructor [Sample.quiet 0 [EventType.CRYPTO_UPDATE_USD]])
    Sample.eurEvent []
  = {| invoked := [];
       outcome := Throw (Error "No handler found for event type: CRYPTO_UPDATE_EUR");
       after := [] |}.
Proof.
  apply (@dispatch_without_handler sample_runtime _
           (DomainEventDispatcher.constructor [Sample.quiet 0 [EventType.CRYPTO_UPDATE_USD]])
           Sample.eurEvent EventType.CRYPTO_UPDATE_EUR []).
  - reflexivity.
  - left. apply constructor_unregistered. vm_compute. reflexivity.
Defined.

(** ** Validation *)



Lemma truthy_get_prop (v : JsValue) (name : string) :
  truthy v = true → ∃ x, get_prop v name = Normal x.
Proof. destruct v; simpl; try discriminate; eauto. Qed.

Lemma get_prop_string_truthy (v : JsValue) (name s : string) :
  get_prop v name = Normal (JStr s) → truthy v = true.
Proof.
  destruct v; simpl; try discriminate; try done.
  - intros [= Hv]. by case_bool_decide.
Qed.



(** C10. The emptiness check reads [payload.length] with no guard. For
    every event of a known kind: when the payload is [null] or [undefined]
    the promise of [processEvent] rejects with the native TypeError, not
    with the invalid-event error, and no handler runs; when the payload has
    a [length] that is not the number zero (an object without that
    property, for one) the event is accepted and goes to [dispatch]. *)
Theorem isValidEventData_reads_length_unguarded `{Runtime} {W : Type}
    (eventDispatcher : gmap string (list (EventHandler W)))
    (eventJson : JsValue) (kind : string) (body : JsValue) (w : W) :
  get_prop eventJson "eventType" = Normal (JStr kind) →
  kind ∈ EventType.values →
  get_prop eventJson "payload" = Normal body →
  (body = JNull ∨ body = JUndefined →
     EventService.isValidEventData eventJson = Throw TypeError
     ∧ EventService.processEvent eventDispatcher eventJson w
       = {| handled := []; settled := Rejected TypeError; world := w |})
  ∧ (∀ len, get_prop body "length" = Normal len → strict_equals_zero len = false →
     EventService.isValidEventData eventJson = Normal true
     ∧ let r := DomainEventDispatcher.dispatch eventDispatcher
                  {| eventType := JStr kind; payload := body |} w in
       EventService.processEvent eventDispatcher eventJson w
       = {| handled := invoked r;
            settled := match outcome r with
                       | Normal _ => Fulfilled ()
                       | Throw e => Rejected e
                       end;
            world := after r |}).
Proof.
  intros Hkind Hin Hbody.
  assert (Hpre : ∀ c, (len ← get_prop body "length";
                       if strict_equals_zero len then Normal false else Normal true) = c →
                      EventService.isValidEventData eventJson = c).
  { intros c <-. unfold EventService.isValidEventData.
    rewrite (get_prop_string_truthy _ _ _ Hkind), Hkind. simpl.
    rewrite bool_decide_eq_true_2 by done. simpl. by rewrite Hbody. }
  split.
  - intros Habsent.
    assert (Hv : EventService.isValidEventData eventJson = Throw TypeError).
    { apply Hpre. by destruct Habsent as [-> | ->]. }
    split; [exact Hv|]. unfold EventService.processEvent. by rewrite Hv.
  - intros len Hlen Hnz.
    assert (Hv : EventService.isValidEventData eventJson = Normal true).
    { apply Hpre. rewrite Hlen. simpl. by rewrite Hnz. }
    split; [exact Hv|]. unfold EventService.processEvent, EventService.as_Event.
    by rewrite Hv, Hkind, Hbody.
Qed.

(** Witness of C10: an EUR event whose payload is [null], and the
    user-notification event of the test suite, whose payload is an object. *)
Lemma isValidEventData_reads_length_unguarded_witness :
  let d := DomainEventDispatcher.constructor
             [Sample.quiet 0 [EventType.CRYPTO_UPDATE_EUR; EventType.USER_NOTIFICATION]] in
  let nullPayload := JObj [("eventType", JStr "CRYPTO_UPDATE_EUR"); ("payload", JNull)] in
  let body := JObj [("userId", JStr "user123"); ("cryptoId", JStr "bitcoin");
                    ("alertPrice", JStr "40000"); ("currentPrice", JStr "41000");
                    ("alertType", JStr "ABOVE")] in
  let notify := JObj [("eventType", JStr "USER_NOTIFICATION"); ("payload", body)] in
  @EventService.processEvent sample_runtime _ d nullPayload []
  = {| handled := []; settled := Rejected TypeError; world := [] |}
  ∧ @EventService.isValidEventData notify = Normal true.
Proof.
  intros d nullPayload body notify. split.
  - destruct (@isValidEventData_reads_length_unguarded sample_runtime _ d nullPayload
                EventType.CRYPTO_UPDATE_EUR JNull [] eq_refl) as [Hnull _].
    + vm_compute. apply list_elem_of_here.
    + reflexivity.
    + apply Hnull. by left.
  - destruct (@isValidEventData_reads_length_unguarded sample_runtime _ d notify
                EventType.USER_NOTIFICATION body [] eq_refl) as [_ Hlen].
    + vm_compute. do 2 apply list_elem_of_further. apply list_elem_of_here.
    + reflexivity.
    + apply (Hlen JUndefined); reflexivity.
Defined.

(** ** The socket registry *)

Section Table.
Context `{SocketIOAdapter.SocketClass}.
Implicit Types (table : SocketIOAdapter.Table) (socket : SocketIOAdapter.Socket).

(** After an assignment the read of the same name finds the socket, under
    [__proto__] as the prototype and under any other name as the own
    property. *)
Lemma Table_get_set_eq table (key : string) socket :
  SocketIOAdapter.Table_get (SocketIOAdapter.Table_set table key socket) key
  = SocketIOAdapter.Bound socket.
Proof.
  unfold SocketIOAdapter.Table_get, SocketIOAdapter.Table_set.
  case_bool_decide; simpl; [done|]. by rewrite lookup_insert_eq.
Qed.

(** An assignment under a name other than [__proto__] leaves the reads of
    the other names as they were. *)
Lemma Table_get_set_ne table (key u : string) socket :
  key ≠ "__proto__" → u ≠ key →
  SocketIOAdapter.Table_get (SocketIOAdapter.Table_set table key socket) u
  = SocketIOAdapter.Table_get table u.
Proof.
  intros Hkey Hu. unfold SocketIOAdapter.Table_get, SocketIOAdapter.Table_set.
  rewrite (bool_decide_eq_false_2 (key = "__proto__")) by done. simpl.
  by rewrite lookup_insert_ne.
Qed.

Lemma Table_get_delete_ne table (key u : string) :
  u ≠ key →
  SocketIOAdapter.Table_get (SocketIOAdapter.Reflect_deleteProperty table key) u
  = SocketIOAdapter.Table_get table u.
Proof.
  intros Hu. unfold SocketIOAdapter.Table_get, SocketIOAdapter.Reflect_deleteProperty.
  simpl. by rewrite lookup_delete_ne.
Qed.

(** [Reflect.deleteProperty] does not reach the prototype. *)
Lemma Table_get_delete_proto table (key : string) :
  SocketIOAdapter.Table_get (SocketIOAdapter.Reflect_deleteProperty table key) "__proto__"
  = SocketIOAdapter.Table_get table "__proto__".
Proof. reflexivity. Qed.

(** An own property is what the read finds, under every name but
    [__proto__]. *)
Lemma Table_get_entry table (key : string) socket :
  key ≠ "__proto__" →
  SocketIOAdapter.entries table !! key = Some socket →
  SocketIOAdapter.Table_get table key = SocketIOAdapter.Bound socket.
Proof.
  intros Hkey Hs. unfold SocketIOAdapter.Table_get.
  rewrite bool_decide_eq_false_2 by done. by rewrite Hs.
Qed.

(** With [Object.prototype] behind the table, a name that it does not
    define and that is no own property reads as [undefined]. *)
Lemma Table_get_absent table (key : string) :
  key ∉ "__proto__" :: SocketIOAdapter.Object_prototype_names →
  SocketIOAdapter.prototype table = None →
  SocketIOAdapter.entries table !! key = None →
  SocketIOAdapter.Table_get table key = SocketIOAdapter.Absent.
Proof.
  intros Hkey Hproto Hnone. apply not_elem_of_cons in Hkey as [Hkey Hnames].
  unfold SocketIOAdapter.Table_get.
  rewrite bool_decide_eq_false_2 by done. rewrite Hnone, Hproto.
  by rewrite bool_decide_eq_false_2.
Qed.

(** A disconnection leaves the reads of the other names as they were, and
    the read of [__proto__] in any case. *)
Lemma on_disconnect_get_ne (a : SocketIOAdapter.t) socket (u : string) :
  u ≠ SocketIOAdapter.userId socket ∨ u = "__proto__" →
  SocketIOAdapter.Table_get
    (SocketIOAdapter.userSocketMap (SocketIOAdapter.on_disconnect a socket)) u
  = SocketIOAdapter.Table_get (SocketIOAdapter.userSocketMap a) u.
Proof.
  intros Hu. unfold SocketIOAdapter.on_disconnect.
  destruct (SocketIOAdapter.Table_get _ (SocketIOAdapter.userId socket)); [done| |done].
  case_bool_decide; [|done]. cbn [SocketIOAdapter.userSocketMap].
  destruct Hu as [Hu| ->]; [by apply Table_get_delete_ne|apply Table_get_delete_proto].
Qed.

(** A disconnection that finds no own property of the user id changes
    nothing. *)
Lemma on_disconnect_no_entry (a : SocketIOAdapter.t) socket :
  SocketIOAdapter.entries (SocketIOAdapter.userSocketMap a)
    !! SocketIOAdapter.userId socket = None →
  SocketIOAdapter.on_disconnect a socket = a.
Proof.
  intros Hnone. unfold SocketIOAdapter.on_disconnect.
  destruct (SocketIOAdapter.Table_get _ _); [done| |done].
  case_bool_decide; [|done].
  destruct a as [initialized [own proto]]. unfold SocketIOAdapter.Reflect_deleteProperty.
  simpl in *. by rewrite delete_id.
Qed.
End Table.

(** C2 (failing input). A socket admitted under the user id [__proto__]:
    the assignment of the connection handler makes it the prototype of the
    table and no own property; when that socket disconnects, the handler
    finds it under [__proto__] with its own id, and
    [Reflect.deleteProperty] removes nothing. The binding is not removed:
    the table still resolves [__proto__] to the closed socket and
    [sendToUser] still emits on it. The members of the socket also show
    through the table: for the user id [emit], which no socket is bound
    to, [sendToUser] was silent before and now throws a TypeError. *)
Theorem proto_binding_survives_disconnect `{Runtime} `{SocketIOAdapter.SocketClass}
    (socketId : string) (messageJson : JsValue) :
  let socket := {| SocketIOAdapter.id := socketId; SocketIOAdapter.userId := "__proto__" |} in
  let bound := SocketIOAdapter.on_connection SocketIOAdapter.constructor socket in
  let closed := SocketIOAdapter.on_disconnect bound socket in
  SocketIOAdapter.Table_get (SocketIOAdapter.userSocketMap bound) "__proto__"
  = SocketIOAdapter.Bound socket
  ∧ SocketIOAdapter.entries (SocketIOAdapter.userSocketMap bound) = ∅
  ∧ closed = bound
  ∧ SocketIOAdapter.Table_get (SocketIOAdapter.userSocketMap closed) "__proto__"
    = SocketIOAdapter.Bound socket
  ∧ SocketIOAdapter.sendToUser closed (JStr "__proto__") messageJson
    = Normal [SocketIOAdapter.SocketEmit socketId "user-specific-event" messageJson]
  ∧ SocketIOAdapter.sendToUser SocketIOAdapter.constructor (JStr "emit") messageJson
    = Normal []
  ∧ SocketIOAdapter.sendToUser closed (JStr "emit") messageJson = Throw TypeError.
Proof.
  intros socket bound closed.
  assert (Hclosed : closed = bound).
  { subst closed bound. unfold SocketIOAdapter.on_disconnect.
    cbn [SocketIOAdapter.on_connection SocketIOAdapter.userSocketMap].
    rewrite Table_get_set_eq. by rewrite bool_decide_eq_true_2. }
  rewrite Hclosed. by repeat split.
Qed.

(** C3. A connection attempt on the authenticated server is refused as a
    missing credential when the handshake has no cookie header or the
    cookies have no [authToken]; once a token is there, it is refused as
    unauthorized when [validateToken] returns [null] and also when it
    throws, and admitted when [validateToken] returns a user id, in which
    case the socket is bound to that user id in the table: the read of the
    table under the user id finds the socket. Nothing else is admitted. *)
Theorem authenticate_admission `{SocketIOAdapter.SocketClass}
    (cookie_parse : string → gmap string string)
    (validateToken : string → Completion (option string))
    (cookieHeader : option string) :
  let verdict := SocketIOAdapter.authenticate cookie_parse validateToken cookieHeader in
  (cookieHeader = None → MissingCredential verdict)
  ∧ (∀ header, cookieHeader = Some header →
       cookie_parse header !! "authToken" = None → MissingCredential verdict)
  ∧ (∀ header authToken, cookieHeader = Some header → header ≠ "" →
       cookie_parse header !! "authToken" = Some authToken → authToken ≠ "" →
       (validateToken authToken = Normal None → Unauthorized verdict)
       ∧ (∀ e, validateToken authToken = Throw e → Unauthorized verdict)
       ∧ (∀ u, validateToken authToken = Normal (Some u) →
            verdict = SocketIOAdapter.Accepted u))
  ∧ (∀ u, verdict = SocketIOAdapter.Accepted u →
       (∃ header authToken, cookieHeader = Some header
          ∧ cookie_parse header !! "authToken" = Some authToken
          ∧ validateToken authToken = Normal (Some u))
       ∧ ∀ a socketId,
           let a' := (SocketIOAdapter.connect cookie_parse validateToken a cookieHeader socketId).2 in
           SocketIOAdapter.Table_get (SocketIOAdapter.userSocketMap a') u
           = SocketIOAdapter.Bound
               {| SocketIOAdapter.id := socketId; SocketIOAdapter.userId := u |}).
Proof.
  intros verdict. subst verdict.
  unfold SocketIOAdapter.authenticate, MissingCredential, Unauthorized.
  split; [|split; [|split]].
  - intros ->. by left.
  - intros header -> Hnone. case_bool_decide; [by left|]. rewrite Hnone. by right.
  - intros header authToken -> Hheader Htok Hnonempty.
    rewrite bool_decide_eq_false_2, Htok, bool_decide_eq_false_2 by done.
    split; [|split].
    + by intros ->.
    + by intros e ->.
    + by intros u ->.
  - intros u Hadmitted. split.
    + destruct cookieHeader as [header|]; [|done].
      case_bool_decide; [done|].
      destruct (cookie_parse header !! "authToken") as [authToken|] eqn:Htok; [|done].
      case_bool_decide; [done|].
      destruct (validateToken authToken) as [[u'|]|e] eqn:Hval; [|done|done].
      exists header, authToken. by simplify_eq.
    + intros a socketId. unfold SocketIOAdapter.connect, SocketIOAdapter.authenticate.
      rewrite Hadmitted. cbn [snd SocketIOAdapter.on_connection
        SocketIOAdapter.userSocketMap SocketIOAdapter.userId].
      apply Table_get_set_eq.
Qed.

(** Witness of C3: no header, a header without the token, a token the auth
    service rejects, a token on which it fails, and a token it accepts. *)
Lemma authenticate_admission_witness :
  let authenticate := SocketIOAdapter.authenticate Sample.cookie_parse Sample.validateToken in
  MissingCredential (authenticate None)
  ∧ MissingCredential (authenticate (Some "theme=dark"))
  ∧ Unauthorized (authenticate (Some "authToken=bad"))
  ∧ Unauthorized (authenticate (Some "authToken=broken"))
  ∧ authenticate (Some "authToken=good") = SocketIOAdapter.Accepted "testUser".
Proof.
  intros authenticate. subst authenticate. split; [|split; [|split; [|split]]].
  - by apply (@authenticate_admission sample_sockets Sample.cookie_parse
                Sample.validateToken None).
  - destruct (@authenticate_admission sample_sockets Sample.cookie_parse
                Sample.validateToken (Some "theme=dark")) as (_ & Hmissing & _).
    apply (Hmissing "theme=dark"); [reflexivity|]. vm_compute. reflexivity.
  - destruct (@authenticate_admission sample_sockets Sample.cookie_parse
                Sample.validateToken (Some "authToken=bad")) as (_ & _ & Htoken & _).
    destruct (Htoken "authToken=bad" "bad") as (Hnull & _ & _);
      [reflexivity|discriminate|vm_compute; reflexivity|discriminate|].
    apply Hnull. reflexivity.
  - destruct (@authenticate_admission sample_sockets Sample.cookie_parse
                Sample.validateToken (Some "authToken=broken")) as (_ & _ & Htoken & _).
    destruct (Htoken "authToken=broken" "broken") as (_ & Hthrows & _);
      [reflexivity|discriminate|vm_compute; reflexivity|discriminate|].
    apply (Hthrows (Error "auth service unreachable")). reflexivity.
  - destruct (@authenticate_admission sample_sockets Sample.cookie_parse
                Sample.validateToken (Some "authToken=good")) as (_ & _ & Htoken & _).
    destruct (Htoken "authToken=good" "good") as (_ & _ & Hvalid);
      [reflexivity|discriminate|vm_compute; reflexivity|discriminate|].
    apply Hvalid. reflexivity.
Defined.

Section Registry.
Context `{SocketIOAdapter.SocketClass}.
Variable cookie_parse : string → gmap string string.
Variable validateToken : string → Completion (option string).

Lemma step_isInitialized (a : SocketIOAdapter.t) (ev : SocketIOAdapter.Lifecycle) :
  SocketIOAdapter.isInitialized (SocketIOAdapter.step cookie_parse validateToken a ev)
  = SocketIOAdapter.isInitialized a.
Proof.
  destruct ev as [cookieHeader socketId | socket]; simpl.
  - unfold SocketIOAdapter.connect.
    by destruct (SocketIOAdapter.authenticate _ _ _).
  - unfold SocketIOAdapter.on_disconnect.
    destruct (SocketIOAdapter.Table_get _ _); [done| |done]. by case_bool_decide.
Qed.

(** The adapter stays initialised from its construction on. *)
Lemma run_isInitialized (evs : list SocketIOAdapter.Lifecycle) :
  SocketIOAdapter.isInitialized (SocketIOAdapter.run cookie_parse validateToken evs) = true.
Proof.
  unfold SocketIOAdapter.run.
  induction evs as [|ev evs IH] using rev_ind; [done|].
  by rewrite foldl_app; simpl; rewrite step_isInitialized.
Qed.

Lemma step_keyed (a : SocketIOAdapter.t) (ev : SocketIOAdapter.Lifecycle) :
  (∀ u s, SocketIOAdapter.entries (SocketIOAdapter.userSocketMap a) !! u = Some s →
          SocketIOAdapter.userId s = u) →
  ∀ u s, SocketIOAdapter.entries
           (SocketIOAdapter.userSocketMap
              (SocketIOAdapter.step cookie_parse validateToken a ev)) !! u = Some s →
         SocketIOAdapter.userId s = u.
Proof.
  intros Ha u s. destruct ev as [cookieHeader socketId | socket]; simpl.
  - unfold SocketIOAdapter.connect.
    destruct (SocketIOAdapter.authenticate _ _ _) as [v|e]; simpl; [|apply Ha].
    unfold SocketIOAdapter.Table_set. case_bool_decide; simpl; [apply Ha|].
    destruct (decide (v = u)) as [->|Hne].
    + rewrite lookup_insert_eq. by intros [= <-].
    + rewrite lookup_insert_ne by done. apply Ha.
  - unfold SocketIOAdapter.on_disconnect.
    destruct (SocketIOAdapter.Table_get _ _); [apply Ha| |apply Ha].
    case_bool_decide; [|apply Ha]. simpl.
    intros Hs. apply lookup_delete_Some in Hs as [_ Hs]. by apply Ha.
Qed.

(** Every own property of the table is filed under the user id of its
    socket. *)
Lemma run_keyed (evs : list SocketIOAdapter.Lifecycle) (u : string)
    (s : SocketIOAdapter.Socket) :
  SocketIOAdapter.entries
    (SocketIOAdapter.userSocketMap (SocketIOAdapter.run cookie_parse validateToken evs)) !! u
  = Some s →
  SocketIOAdapter.userId s = u.
Proof.
  unfold SocketIOAdapter.run. revert u s.
  induction evs as [|ev evs IH] using rev_ind; [done|].
  rewrite foldl_app. simpl. by apply step_keyed.
Qed.
End Registry.

(** C6 (failing input). On the adapter as its constructor leaves it, with
    no socket bound: a user id that names a member of [Object.prototype]
    reads that member, which is truthy and has no [emit], and [sendToUser]
    throws a TypeError instead of returning silently. *)
Theorem sendToUser_inherited_name_throws `{Runtime} `{SocketIOAdapter.SocketClass}
    (messageJson : JsValue) :
  SocketIOAdapter.entries (SocketIOAdapter.userSocketMap SocketIOAdapter.constructor) = ∅
  ∧ SocketIOAdapter.sendToUser SocketIOAdapter.constructor (JStr "constructor") messageJson
    = Throw TypeError
  ∧ Forall (λ name,
        SocketIOAdapter.sendToUser SocketIOAdapter.constructor (JStr name) messageJson
        = Throw TypeError)
      ("__proto__" :: SocketIOAdapter.Object_prototype_names).
Proof.
  split; [done|]. split; [done|].
  unfold SocketIOAdapter.Object_prototype_names. by repeat constructor.
Qed.

(** ** The handlers *)

Lemma project_object (props : list (string * JsValue)) :
  NotificationUpdateMessage.project (JObj props)
  = Normal (JObj [("id", own_property props "id");
                  ("symbol", own_property props "symbol");
                  ("price", own_property props "price")]).
Proof. reflexivity. Qed.

(** [map] over a sequence of records returns their projections, one for
    each record and in the same order. *)
Lemma map_project_records (records : list JsValue) :
  Forall (λ r, ∃ props, r = JObj props) records →
  ∃ projected,
    mapM NotificationUpdateMessage.project records = Normal projected
    ∧ Forall2 projection_of records projected.
Proof.
  induction 1 as [|r records [props ->] _ (projected & Hmap & Hall)].
  - exists []. split; [reflexivity|constructor].
  - eexists (_ :: projected). split.
    + cbn [mapM]. rewrite project_object, Hmap. reflexivity.
    + constructor; [|exact Hall]. by exists props.
Qed.

(** On a payload that is not a sequence, [payload.map] throws before any
    port is called. *)
Lemma cryptoUpdate_payload_not_a_sequence (clock : nat → string) (event : Event)
    (w : Recorder.t) :
  (∀ records, payload event ≠ JArr records) →
  Recorder.cryptoUpdateHandler clock event w
  = (Throw TypeError,
     {| Recorder.calls := Recorder.calls w; Recorder.reads := S (S (Recorder.reads w)) |}).
Proof.
  intros Hnot.
  unfold Recorder.cryptoUpdateHandler, CryptoUpdateHandler.handle.
  unfold NotificationUpdateMessage.createNotificationUpdateMessage,
    NotificationUpdateMessage.Array_map.
  cbn [now_toISOString Recorder.t_clock Recorder.reads Recorder.calls].
  destruct (payload event) as [| | | | |records|]; try reflexivity.
  by destruct (Hnot records).
Qed.

(** C7. For every crypto-update event whose payload is a sequence of
    records, the handler makes two port calls and no other: a broadcast on
    the sub-channel of the kind of the event (EUR on [broadcastEUR], USD on
    [broadcastUSD]) of a message whose payload is the payload of the event
    as it came, then a relay call tagged with the currency of the kind,
    whose message carries the records projected to id, symbol and price. *)
Theorem cryptoUpdate_broadcast_and_relay (clock : nat → string) (event : Event)
    (records : list JsValue) (w : Recorder.t) :
  payload event = JArr records →
  Forall (λ r, ∃ props, r = JObj props) records →
  ∃ projected,
    Forall2 projection_of records projected
    ∧ let view :=
        ViewUpdateMessage.createViewUpdateMessage (clock (Recorder.reads w)) (payload event) in
      let note := JObj [("timestamp", JStr (clock (S (Recorder.reads w))));
                        ("payload", JArr projected)] in
      get_prop view "payload" = Normal (payload event)
      ∧ (eventType event = JStr EventType.CRYPTO_UPDATE_EUR →
         Recorder.cryptoUpdateHandler clock event w
         = (Normal (),
            {| Recorder.calls := Recorder.calls w
                 ++ [Recorder.BroadcastEUR view; Recorder.SendNotification "eur" note];
               Recorder.reads := S (S (Recorder.reads w)) |}))
      ∧ (eventType event = JStr EventType.CRYPTO_UPDATE_USD →
         Recorder.cryptoUpdateHandler clock event w
         = (Normal (),
            {| Recorder.calls := Recorder.calls w
                 ++ [Recorder.BroadcastUSD view; Recorder.SendNotification "usd" note];
               Recorder.reads := S (S (Recorder.reads w)) |})).
Proof.
  intros Hpayload Hrecords.
  destruct (map_project_records records Hrecords) as (projected & Hmap & Hall).
  exists projected. split; [exact Hall|]. split; [reflexivity|].
  unfold Recorder.cryptoUpdateHandler, CryptoUpdateHandler.handle.
  unfold NotificationUpdateMessage.createNotificationUpdateMessage,
    NotificationUpdateMessage.Array_map.
  cbn [now_toISOString Recorder.t_clock Recorder.reads Recorder.calls].
  rewrite Hpayload, Hmap. cbn [mbind Completion_bind].
  unfold strict_equals_string. split; intros ->.
  - rewrite bool_decide_eq_true_2 by reflexivity.
    cbn. unfold Recorder.record. cbn. by rewrite <- app_assoc.
  - rewrite bool_decide_eq_false_2 by discriminate.
    rewrite bool_decide_eq_true_2 by reflexivity.
    cbn. unfold Recorder.record. cbn. by rewrite <- app_assoc.
Qed.

(** Witness of C7: the two records of the test suite, cut to four fields,
    in an EUR event. *)
Lemma cryptoUpdate_broadcast_and_relay_witness :
  let bitcoin := JObj [("id", JStr "bitcoin"); ("symbol", JStr "btc");
                       ("name", JStr "Bitcoin"); ("price", JNum (Q2Qc 102809))] in
  let ethereum := JObj [("id", JStr "ethereum"); ("symbol", JStr "eth");
                        ("name", JStr "Ethereum"); ("price", JNum (Q2Qc (318737 # 100)))] in
  let event := {| eventType := JStr EventType.CRYPTO_UPDATE_EUR;
                  payload := JArr [bitcoin; ethereum] |} in
  ∃ view note,
    Recorder.calls
      (Recorder.cryptoUpdateHandler (λ _, "2025-01-28T12:18:33.307Z") event
         {| Recorder.calls := []; Recorder.reads := 0 |}).2
    = [Recorder.BroadcastEUR view; Recorder.SendNotification "eur" note]
    ∧ get_prop view "payload" = Normal (JArr [bitcoin; ethereum])
    ∧ get_prop note "payload"
      = Normal (JArr [JObj [("id", JStr "bitcoin"); ("symbol", JStr "btc");
                            ("price", JNum (Q2Qc 102809))];
                      JObj [("id", JStr "ethereum"); ("symbol", JStr "eth");
                            ("price", JNum (Q2Qc (318737 # 100)))]]).
Proof.
  intros bitcoin ethereum event.
  destruct (cryptoUpdate_broadcast_and_relay (λ _, "2025-01-28T12:18:33.307Z") event
              [bitcoin; ethereum] {| Recorder.calls := []; Recorder.reads := 0 |} eq_refl)
    as (projected & Hall & Hview & Heur & _).
  - repeat constructor; eexists; reflexivity.
  - eexists _, _. rewrite (Heur eq_refl). split; [reflexivity|]. split; [exact Hview|].
    apply Forall2_cons_inv_l in Hall as (p1 & rest & (props1 & Hb & ->) & Hall & ->).
    apply Forall2_cons_inv_l in Hall as (p2 & rest' & (props2 & He & ->) & Hall & ->).
    apply Forall2_nil_inv_l in Hall as ->.
    injection Hb as <-. injection He as <-. reflexivity.
Defined.

Lemma strict_equals_string_spec (v : JsValue) (s : string) :
  strict_equals_string v s = true ↔ v = JStr s.
Proof.
  destruct v; simpl; try (split; [discriminate|intros [=]]).
  rewrite bool_decide_eq_true. split; [by intros ->|by intros [= ->]].
Qed.

(** C8 (amended). For every user-notification event whose payload is an
    object, the handler makes one port call and no other, [sendToUser] with
    the [userId] of the payload and an object holding the message: the
    [message] of the payload unchanged when that is truthy (a string that is
    not empty, for one); otherwise, so also when [message] is absent, [null]
    or the empty string, the text made of the [cryptoId], the verb, the
    [alertPrice] and the [currentPrice], each converted to a string, the
    verb being [surpassed] exactly when [alertType] is the string [ABOVE]
    and [dropped below] in every other case. No broadcast is made. *)
Theorem userNotification_message `{Runtime} (event : Event)
    (props : list (string * JsValue)) (w : Recorder.t) :
  payload event = JObj props →
  let field := own_property props in
  (truthy (field "message") = true →
   Recorder.userNotificationHandler event w
   = (Normal (),
      {| Recorder.calls := Recorder.calls w
           ++ [Recorder.SendToUser (field "userId") (JObj [("message", field "message")])];
         Recorder.reads := Recorder.reads w |}))
  ∧ (truthy (field "message") = false →
     ∀ crypto target current,
       toString (field "cryptoId") = Normal crypto →
       toString (field "alertPrice") = Normal target →
       toString (field "currentPrice") = Normal current →
       ∃ verb,
         (verb = "surpassed" ↔ field "alertType" = JStr "ABOVE")
         ∧ (verb ≠ "surpassed" → verb = "dropped below")
         ∧ Recorder.userNotificationHandler event w
           = (Normal (),
              {| Recorder.calls := Recorder.calls w
                   ++ [Recorder.SendToUser (field "userId")
                         (JObj [("message",
                                 JStr (crypto +:+ " price " +:+ verb
                                       +:+ " your target of $" +:+ target
                                       +:+ ". Current price is $" +:+ current +:+ "."))])];
                 Recorder.reads := Recorder.reads w |})).
Proof.
  intros Hpayload field. subst field.
  unfold Recorder.userNotificationHandler, UserNotificationHandler.handle,
    UserNotificationHandler.notification.
  rewrite Hpayload. cbn [get_prop mbind Completion_bind]. split.
  - intros ->. reflexivity.
  - intros -> crypto target current Hc Ht Hp.
    unfold UserNotificationHandler.defaultMessage. rewrite Hc, Ht, Hp.
    cbn [mbind Completion_bind fmap Completion_fmap].
    destruct (strict_equals_string (own_property props "alertType") "ABOVE") eqn:Habove.
    + exists "surpassed". split; [|split; [done|reflexivity]].
      split; [intros _|done]. by apply strict_equals_string_spec.
    + exists "dropped below". split; [|split; [done|reflexivity]].
      split; [done|]. intros Heq%strict_equals_string_spec. congruence.
Qed.

(** Witness of C8: the notification of the test suite without a message,
    and the one with a custom message. *)
Lemma userNotification_message_witness :
  let alert := [("userId", JStr "user123"); ("cryptoId", JStr "bitcoin");
                ("alertPrice", JStr "40000"); ("currentPrice", JStr "41000");
                ("alertType", JStr "ABOVE")] in
  let custom := alert ++ [("message", JStr "This is a custom alert message!")] in
  let run props :=
    Recorder.calls
      (@Recorder.userNotificationHandler sample_runtime
         {| eventType := JStr EventType.USER_NOTIFICATION; payload := JObj props |}
         {| Recorder.calls := []; Recorder.reads := 0 |}).2 in
  run alert
  = [Recorder.SendToUser (JStr "user123")
       (JObj [("message",
               JStr "bitcoin price surpassed your target of $40000. Current price is $41000.")])]
  ∧ run custom
    = [Recorder.SendToUser (JStr "user123")
         (JObj [("message", JStr "This is a custom alert message!")])].
Proof.
  intros alert custom run. subst run. split.
  - destruct (@userNotification_message sample_runtime
                {| eventType := JStr EventType.USER_NOTIFICATION; payload := JObj alert |}
                alert {| Recorder.calls := []; Recorder.reads := 0 |} eq_refl)
      as [_ Hdefault].
    destruct (Hdefault eq_refl "bitcoin" "40000" "41000" eq_refl eq_refl eq_refl)
      as (verb & [_ Hverb] & _ & ->).
    rewrite (Hverb eq_refl). reflexivity.
  - destruct (@userNotification_message sample_runtime
                {| eventType := JStr EventType.USER_NOTIFICATION; payload := JObj custom |}
                custom {| Recorder.calls := []; Recorder.reads := 0 |} eq_refl)
      as [Hcustom _].
    rewrite (Hcustom eq_refl). reflexivity.
Defined.

(** Counterexample to C8 as stated: the payload carries a [message] field
    holding the empty string; the handler does not deliver that string but
    the default text. *)
Lemma userNotification_empty_message_replaced :
  let body := JObj [("userId", JStr "user123"); ("cryptoId", JStr "bitcoin");
                    ("alertPrice", JStr "40000"); ("currentPrice", JStr "41000");
                    ("alertType", JStr "ABOVE"); ("message", JStr "")] in
  let delivered :=
    Recorder.calls
      (@Recorder.userNotificationHandler sample_runtime
         {| eventType := JStr EventType.USER_NOTIFICATION; payload := body |}
         {| Recorder.calls := []; Recorder.reads := 0 |}).2 in
  get_prop body "message" = Normal (JStr "")
  ∧ delivered
    = [Recorder.SendToUser (JStr "user123")
         (JObj [("message",
                 JStr "bitcoin price surpassed your target of $40000. Current price is $41000.")])]
  ∧ delivered ≠ [Recorder.SendToUser (JStr "user123") (JObj [("message", JStr "")])].
Proof. vm_compute. repeat split; done. Qed.

(** ** The notification relay *)

Section Relay.
Context `{Runtime} `{SocketIOAdapter.SocketClass}.
Variable clock : nat → string.
Variable baseUrl : string.
Variables axios_post axios_post' : string → JsValue → Completion (Promise unit).

Lemma forEach_agree (event : Event) (hs hs' : list (EventHandler Production.World))
    (w w' : Production.World) :
  Forall2 (agree_up_to_relay event) hs hs' →
  outside_relay w = outside_relay w' →
  let r := DomainEventDispatcher.forEach_handle hs event w in
  let r' := DomainEventDispatcher.forEach_handle hs' event w' in
  invoked r = invoked r' ∧ outcome r = outcome r'
  ∧ outside_relay (after r) = outside_relay (after r').
Proof.
  intros Hall. revert w w'.
  induction Hall as [|h h' hs hs' [Hid Hh] _ IH]; intros w w' Hw; simpl; [done|].
  destruct (Hh w w' Hw) as [Hc Hw1].
  destruct (handle h event w) as [c w1], (handle h' event w') as [c' w1'].
  simpl in Hc, Hw1. subst c'. destruct c as [[]|e]; simpl.
  - destruct (IH w1 w1' Hw1) as (Hi & Ho & Ha). by rewrite Hid, Hi.
  - by rewrite Hid.
Qed.

Lemma cryptoUpdateHandler_agree (event : Event) (identity : nat) :
  agree_up_to_relay event
    (@CryptoUpdateHandler.instance _ (Production.World_clock clock) Production.eventOutput
       (Production.notificationService baseUrl axios_post) identity)
    (@CryptoUpdateHandler.instance _ (Production.World_clock clock) Production.eventOutput
       (Production.notificationService baseUrl axios_post') identity).
Proof.
  split; [done|].
  intros [s em rl tk] [s' em' rl' tk'] [= <- <- <-].
  unfold CryptoUpdateHandler.instance, handle, CryptoUpdateHandler.handle.
  cbn [now_toISOString Production.World_clock Production.ticks Production.sockets
       Production.emitted Production.relay].
  destruct (NotificationUpdateMessage.createNotificationUpdateMessage _ _) as [note|e];
    [|done].
  destruct (strict_equals_string _ _).
  - cbn. unfold Production.deliver. cbn.
    destruct (SocketIOAdapter.broadcastEUR s _) as [out|e]; [|done]. cbn.
    unfold NotificationAdapter.sendNotification.
    by destruct (axios_post _ _) as [[]|], (axios_post' _ _) as [[]|].
  - destruct (strict_equals_string _ _); [|done].
    cbn. unfold Production.deliver. cbn.
    destruct (SocketIOAdapter.broadcastUSD s _) as [out|e]; [|done]. cbn.
    unfold NotificationAdapter.sendNotification.
    by destruct (axios_post _ _) as [[]|], (axios_post' _ _) as [[]|].
Qed.

Lemma userNotificationHandler_agree (event : Event) (identity : nat) :
  agree_up_to_relay event
    (UserNotificationHandler.instance Production.eventOutput identity)
    (UserNotificationHandler.instance Production.eventOutput identity).
Proof.
  split; [done|].
  intros [s em rl tk] [s' em' rl' tk'] [= <- <- <-].
  unfold UserNotificationHandler.instance, handle, UserNotificationHandler.handle.
  destruct (UserNotificationHandler.notification _) as [[userId message]|e]; [|done].
  cbn. unfold Production.deliver. cbn.
  by destruct (SocketIOAdapter.sendToUser s _ _).
Qed.

Lemma dispatch_agree (event : Event) (w w' : Production.World) :
  outside_relay w = outside_relay w' →
  let r := DomainEventDispatcher.dispatch
             (Production.eventService clock baseUrl axios_post) event w in
  let r' := DomainEventDispatcher.dispatch
              (Production.eventService clock baseUrl axios_post') event w' in
  invoked r = invoked r' ∧ outcome r = outcome r'
  ∧ outside_relay (after r) = outside_relay (after r').
Proof.
  intros Hw. unfold DomainEventDispatcher.dispatch, DomainEventDispatcher.Map_get.
  destruct (eventType event) as [| | | |kind| |]; try done.
  unfold Production.eventService, EventService.constructor.
  rewrite !constructor_lookup.
  unfold registered_for, registrations.
  cbn [mbind list_bind fmap list_fmap app eventTypes CryptoUpdateHandler.instance
       UserNotificationHandler.instance CryptoUpdateHandler.eventTypes
       UserNotificationHandler.eventTypes].
  rewrite !filter_cons, !filter_nil. cbn [fst].
  repeat case_decide; subst; try discriminate; cbn [fmap list_fmap snd];
    try done;
    (apply forEach_agree; try done);
    (constructor; [|constructor]);
    first [apply cryptoUpdateHandler_agree | apply userNotificationHandler_agree].
Qed.
End Relay.

(** C9. For every currency and message and whatever [axios.post] does
    (fulfil, reject or throw), the promise that [sendNotification] returns
    is fulfilled, the failure being written to the console and nowhere
    else; and nothing the service does beside the relay depends on the
    relay: with any two behaviours of [axios.post], [processEvent] on the
    service wired to the two adapters invokes the same handlers, settles
    alike and leaves the same socket state and emissions, so no relay
    failure fails a broadcast or the dispatch. *)
Theorem sendNotification_failure_swallowed `{Runtime} `{SocketIOAdapter.SocketClass}
    (clock : nat → string)
    (baseUrl : string)
    (axios_post axios_post' : string → JsValue → Completion (Promise unit))
    (currency : string) (messageJson : JsValue) (r : NotificationAdapter.Relay)
    (eventJson : JsValue) (w : Production.World) :
  let sent := NotificationAdapter.sendNotification baseUrl axios_post currency messageJson r in
  let url := baseUrl +:+ "/data?currency=" +:+ currency in
  sent.1 = Fulfilled ()
  ∧ (∀ e, axios_post url messageJson = Normal (Rejected e)
          ∨ axios_post url messageJson = Throw e →
          NotificationAdapter.console sent.2 = NotificationAdapter.console r ++ [e])
  ∧ (sendNotification (Production.notificationService baseUrl axios_post)
       currency messageJson w).1 = Normal (Fulfilled ())
  ∧ let p := EventService.processEvent
               (Production.eventService clock baseUrl axios_post) eventJson w in
    let p' := EventService.processEvent
                (Production.eventService clock baseUrl axios_post') eventJson w in
    handled p = handled p' ∧ settled p = settled p'
    ∧ outside_relay (world p) = outside_relay (world p').
Proof.
  intros sent url. subst sent url. split; [|split; [|split]].
  - unfold NotificationAdapter.sendNotification. by destruct (axios_post _ _) as [[]|].
  - intros e He. unfold NotificationAdapter.sendNotification. by destruct He as [-> | ->].
  - cbn. unfold NotificationAdapter.sendNotification. by destruct (axios_post _ _) as [[]|].
  - unfold EventService.processEvent.
    destruct (EventService.isValidEventData eventJson) as [[|]|e]; [|done|done].
    destruct (dispatch_agree clock baseUrl axios_post axios_post'
                (EventService.as_Event eventJson) w w eq_refl) as (Hi & Ho & Ha).
    simpl. by rewrite Hi, Ho, Ha.
Qed.

(** Witness of C9: the relay is down; the promise of [sendNotification] is
    fulfilled all the same and the error is on the console. *)
Lemma sendNotification_failure_swallowed_witness :
  let sent := NotificationAdapter.sendNotification "http://notification:3000"
                Sample.relay_down "eur" JNull (Production.relay Sample.started) in
  sent.1 = Fulfilled ()
  ∧ NotificationAdapter.console sent.2 = [Error "connect ECONNREFUSED"].
Proof.
  intros sent.
  destruct (@sendNotification_failure_swallowed sample_runtime sample_sockets (λ _, "")
              "http://notification:3000" Sample.relay_down Sample.relay_down "eur" JNull
              (Production.relay Sample.started) JNull Sample.started)
    as (Hfulfilled & Hlogged & _).
  split; [exact Hfulfilled|].
  apply (Hlogged (Error "connect ECONNREFUSED")). left. reflexivity.
Defined.

(** With the relay down, an EUR update is still broadcast on the EUR
    sub-channel and [processEvent] is fulfilled. *)
Example processEvent_with_relay_down :
  let p := @EventService.processEvent sample_runtime _
             (@Production.eventService sample_runtime sample_sockets (λ _, "2025-01-28T12:18:33.307Z")
                "http://notification:3000" Sample.relay_down)
             Sample.eurEventJson Sample.started in
  settled p = Fulfilled ()
  ∧ handled p = [(0, Sample.eurEvent)]
  ∧ Production.emitted (world p)
    = [SocketIOAdapter.ServerEmit "broadcastEUR"
         (ViewUpdateMessage.createViewUpdateMessage "2025-01-28T12:18:33.307Z"
            (payload Sample.eurEvent))]
  ∧ NotificationAdapter.console (Production.relay (world p))
    = [Error "connect ECONNREFUSED"].
Proof. vm_compute. done. Qed.

(** ** The cases of the test suite, on the recording ports *)

(** An EUR update goes through validation and dispatch to one broadcast and
    one relay call. *)
Example processEvent_crypto_update_eur :
  let p := @EventService.processEvent sample_runtime _
             (@Recorder.eventService (λ _, "2025-01-28T12:18:33.307Z") sample_runtime)
             Sample.eurEventJson {| Recorder.calls := []; Recorder.reads := 0 |} in
  settled p = Fulfilled ()
  ∧ handled p = [(0, Sample.eurEvent)]
  ∧ Recorder.calls (world p)
    = [Recorder.BroadcastEUR
         (JObj [("eventType", JStr "CRYPTO_UPDATE");
                ("timestamp", JStr "2025-01-28T12:18:33.307Z");
                ("payload", payload Sample.eurEvent)]);
       Recorder.SendNotification "eur"
         (JObj [("timestamp", JStr "2025-01-28T12:18:33.307Z");
                ("payload", JArr [JObj [("id", JStr "bitcoin"); ("symbol", JStr "btc");
                                        ("price", JUndefined)]])])].
Proof. vm_compute. done. Qed.

(** A user notification without a message reaches the user with the
    default text. *)
Example processEvent_user_notification :
  let body := JObj [("userId", JStr "user123"); ("cryptoId", JStr "bitcoin");
                    ("alertPrice", JStr "40000"); ("currentPrice", JStr "39000");
                    ("alertType", JStr "BELOW")] in
  let p := @EventService.processEvent sample_runtime _
             (@Recorder.eventService (λ _, "") sample_runtime)
             (JObj [("eventType", JStr "USER_NOTIFICATION"); ("payload", body)])
             {| Recorder.calls := []; Recorder.reads := 0 |} in
  settled p = Fulfilled ()
  ∧ Recorder.calls (world p)
    = [Recorder.SendToUser (JStr "user123")
         (JObj [("message",
                 JStr "bitcoin price dropped below your target of $40000. Current price is $39000.")])].
Proof. vm_compute. done. Qed.

(** A USD update whose payload is not a sequence passes validation and
    fails in the handler. *)
Example processEvent_payload_not_a_sequence :
  let p := @EventService.processEvent sample_runtime _
             (@Recorder.eventService (λ _, "") sample_runtime)
             (JObj [("eventType", JStr "CRYPTO_UPDATE_USD"); ("payload", JStr "abc")])
             {| Recorder.calls := []; Recorder.reads := 0 |} in
  settled p = Rejected TypeError ∧ Recorder.calls (world p) = [].
Proof. vm_compute. done. Qed.

(** * Further properties *)

(** ** The table of the dispatcher *)

(** X1. The map the constructor builds has a key exactly for the kinds some
    handler declares; the list under a key is never empty and holds exactly
    the handlers that declare the kind. *)
Theorem constructor_keys_are_declared_kinds {W : Type}
    (handlers : list (EventHandler W)) (kind : string) :
  (is_Some (DomainEventDispatcher.constructor handlers !! kind)
   ↔ ∃ h, h ∈ handlers ∧ kind ∈ eventTypes h)
  ∧ (∀ l, DomainEventDispatcher.constructor handlers !! kind = Some l →
       l ≠ [] ∧ ∀ h, h ∈ l ↔ h ∈ handlers ∧ kind ∈ eventTypes h).
Proof.
  rewrite constructor_lookup. split.
  - destruct (registered_for kind handlers) as [|h0 l0] eqn:Hreg.
    + split; [by intros [? ?]|]. intros (h & Hh & Hk).
      assert (Hin : h ∈ registered_for kind handlers)
        by by apply elem_of_registered_for.
      rewrite Hreg in Hin. by apply elem_of_nil in Hin.
    + split; [|by eauto]. intros _. exists h0.
      apply elem_of_registered_for. rewrite Hreg. apply list_elem_of_here.
  - intros l Hl.
    destruct (registered_for kind handlers) as [|h0 l0] eqn:Hreg; [done|].
    injection Hl as <-. split; [done|].
    intros h. rewrite <- Hreg. apply elem_of_registered_for.
Qed.

(** When every handler declares each of its kinds once, the handlers
    registered for a kind are the handlers that declare it, in the order
    they were passed in. *)
Lemma registered_for_filter {W : Type} (handlers : list (EventHandler W)) (kind : string) :
  Forall (λ h, NoDup (eventTypes h)) handlers →
  registered_for kind handlers = filter (λ h, kind ∈ eventTypes h) handlers.
Proof.
  unfold registered_for, registrations.
  induction 1 as [|h hs Hnd _ IH]; [done|].
  cbn [mbind list_bind]. rewrite filter_app, fmap_app, IH, filter_cons.
  assert (Hh : (filter (λ r : string * EventHandler W, r.1 = kind)
                  ((λ k, (k, h)) <$> eventTypes h)).*2
               = if decide (kind ∈ eventTypes h) then [h] else []).
  { clear IH. induction Hnd as [|k ks Hk _ IHks]; [done|].
    cbn [fmap list_fmap]. rewrite filter_cons. cbn [fst].
    destruct (decide (k = kind)) as [->|Hne].
    - rewrite decide_True by apply list_elem_of_here.
      cbn [fmap list_fmap snd]. f_equal.
      rewrite IHks. by rewrite decide_False.
    - rewrite IHks. destruct (decide (kind ∈ ks)) as [Hin|Hout].
      + rewrite decide_True; [done|]. by apply list_elem_of_further.
      + rewrite decide_False; [done|].
        intros [?|?]%elem_of_cons; [congruence|done]. }
  rewrite Hh. by destruct (decide (kind ∈ eventTypes h)).
Qed.

(** X2. When the handlers passed to the constructor are distinct instances
    and each declares each of its kinds once, [dispatch] invokes no handler
    twice; and when it returns normally, it has invoked every handler that
    declares the kind of the event. *)
Theorem dispatch_once_per_handler `{Runtime} {W : Type}
    (handlers : list (EventHandler W)) (event : Event) (kind : string) (w : W) :
  NoDup (hid <$> handlers) →
  Forall (λ h, NoDup (eventTypes h)) handlers →
  eventType event = JStr kind →
  let r := DomainEventDispatcher.dispatch
             (DomainEventDispatcher.constructor handlers) event w in
  NoDup (invoked r).*1
  ∧ (outcome r = Normal () →
     ∀ h, h ∈ handlers → kind ∈ eventTypes h → hid h ∈ (invoked r).*1).
Proof.
  intros Hids Hkinds Hkind r. subst r.
  unfold DomainEventDispatcher.dispatch, DomainEventDispatcher.Map_get.
  rewrite Hkind, constructor_lookup.
  assert (Hdue : NoDup (hid <$> registered_for kind handlers)).
  { rewrite registered_for_filter by done.
    eapply sublist_NoDup; [exact Hids|].
    apply fmap_sublist, sublist_filter. }
  destruct (registered_for kind handlers) as [|h0 hs0] eqn:Hreg.
  - cbn. split; [constructor|done].
  - cbv beta iota. split.
    + destruct (forEach_prefix (h0 :: hs0) event w) as [rest Hpre].
      apply (f_equal (fmap fst)) in Hpre. rewrite fmap_app, <- list_fmap_compose in Hpre.
      change (fst ∘ (λ h, (hid h, event))) with (@hid W) in Hpre.
      rewrite Hpre in Hdue. by apply NoDup_app in Hdue as [? _].
    + intros Hn h Hh Hk. rewrite (forEach_normal _ _ _ Hn), <- list_fmap_compose.
      change (fst ∘ (λ h, (hid h, event))) with (@hid W).
      apply list_elem_of_fmap. exists h. split; [done|].
      rewrite <- Hreg. by apply elem_of_registered_for.
Qed.

(** Witness of X2: three distinct handlers; the two that declare the EUR
    kind are invoked once each. *)
Lemma dispatch_once_per_handler_witness :
  let handlers := [Sample.quiet 0 [EventType.CRYPTO_UPDATE_EUR];
                   Sample.quiet 1 [EventType.CRYPTO_UPDATE_USD; EventType.CRYPTO_UPDATE_EUR];
                   Sample.quiet 2 [EventType.USER_NOTIFICATION]] in
  let r := @DomainEventDispatcher.dispatch sample_runtime _
             (DomainEventDispatcher.constructor handlers) Sample.eurEvent [] in
  NoDup (invoked r).*1.
Proof.
  intros handlers r.
  apply (@dispatch_once_per_handler sample_runtime _ handlers Sample.eurEvent
           EventType.CRYPTO_UPDATE_EUR []).
  - apply (bool_decide_unpack _). vm_compute. exact I.
  - apply (bool_decide_unpack _). vm_compute. exact I.
  - reflexivity.
Defined.

(** ** The life of the socket adapter *)

(** X3. Before [initialize] has run, the three delivery methods throw the
    not-initialized error and emit nothing; [initialize] is idempotent and
    keeps the table; in every state reached from the constructor a
    broadcast returns normally with one emission on the public server,
    under the event name of its method and with the message as given. *)
Theorem delivery_guarded_by_initialize `{Runtime} `{SocketIOAdapter.SocketClass}
    (cookie_parse : string → gmap string string)
    (validateToken : string → Completion (option string))
    (evs : list SocketIOAdapter.Lifecycle) (a : SocketIOAdapter.t)
    (userId messageJson : JsValue) :
  let notInitialized := Throw (Error "SocketIOAdapter not initialized") in
  let reached := SocketIOAdapter.run cookie_parse validateToken evs in
  (SocketIOAdapter.isInitialized a = false →
     SocketIOAdapter.broadcastEUR a messageJson = notInitialized
     ∧ SocketIOAdapter.broadcastUSD a messageJson = notInitialized
     ∧ SocketIOAdapter.sendToUser a userId messageJson = notInitialized)
  ∧ SocketIOAdapter.initialize (SocketIOAdapter.initialize a) = SocketIOAdapter.initialize a
  ∧ SocketIOAdapter.userSocketMap (SocketIOAdapter.initialize a)
    = SocketIOAdapter.userSocketMap a
  ∧ SocketIOAdapter.broadcastEUR reached messageJson
    = Normal [SocketIOAdapter.ServerEmit "broadcastEUR" messageJson]
  ∧ SocketIOAdapter.broadcastUSD reached messageJson
    = Normal [SocketIOAdapter.ServerEmit "broadcastUSD" messageJson].
Proof.
  intros notInitialized reached. subst notInitialized reached.
  split; [|split; [|split; [|split]]].
  - intros Ha. unfold SocketIOAdapter.broadcastEUR, SocketIOAdapter.broadcastUSD,
      SocketIOAdapter.sendToUser. by rewrite Ha.
  - unfold SocketIOAdapter.initialize. by destruct a as [[] ?].
  - unfold SocketIOAdapter.initialize. by destruct a as [[] ?].
  - unfold SocketIOAdapter.broadcastEUR. by rewrite run_isInitialized.
  - unfold SocketIOAdapter.broadcastUSD. by rewrite run_isInitialized.
Qed.

(** Witness of X3: the adapter before its constructor body has run. *)
Lemma delivery_guarded_by_initialize_witness :
  @SocketIOAdapter.sendToUser sample_runtime sample_sockets SocketIOAdapter.fresh
    (JStr "testUser") JNull
  = Throw (Error "SocketIOAdapter not initialized").
Proof.
  destruct (@delivery_guarded_by_initialize sample_runtime sample_sockets
              Sample.cookie_parse Sample.validateToken [] SocketIOAdapter.fresh
              (JStr "testUser") JNull)
    as [Hfresh _].
  by destruct (Hfresh eq_refl) as (_ & _ & ->).
Defined.

(** X4. Every socket the table binds was admitted: whether it is an own
    property of the table or, under [__proto__], its prototype, it entered
    through a connection attempt whose middleware accepted exactly the user
    id it is bound under. *)
Theorem bound_socket_was_admitted `{SocketIOAdapter.SocketClass}
    (cookie_parse : string → gmap string string)
    (validateToken : string → Completion (option string))
    (evs : list SocketIOAdapter.Lifecycle) (user : string)
    (socket : SocketIOAdapter.Socket) :
  let table := SocketIOAdapter.userSocketMap
                 (SocketIOAdapter.run cookie_parse validateToken evs) in
  SocketIOAdapter.entries table !! user = Some socket
  ∨ (user = "__proto__" ∧ SocketIOAdapter.prototype table = Some socket) →
  ∃ cookieHeader,
    SocketIOAdapter.Connect cookieHeader (SocketIOAdapter.id socket) ∈ evs
    ∧ SocketIOAdapter.authenticate cookie_parse validateToken cookieHeader
      = SocketIOAdapter.Accepted user.
Proof.
  cbv zeta. unfold SocketIOAdapter.run. revert user socket.
  induction evs as [|ev evs IH] using rev_ind; intros user socket.
  { by intros [?|[_ ?]]. }
  rewrite foldl_app. simpl.
  set (a := foldl (SocketIOAdapter.step cookie_parse validateToken)
              SocketIOAdapter.constructor evs) in *.
  assert (Hold : ∀ s,
            SocketIOAdapter.entries (SocketIOAdapter.userSocketMap a) !! user = Some s
            ∨ (user = "__proto__"
               ∧ SocketIOAdapter.prototype (SocketIOAdapter.userSocketMap a) = Some s) →
            ∃ cookieHeader,
              SocketIOAdapter.Connect cookieHeader (SocketIOAdapter.id s) ∈ evs ++ [ev]
              ∧ SocketIOAdapter.authenticate cookie_parse validateToken cookieHeader
                = SocketIOAdapter.Accepted user).
  { intros s Hs. destruct (IH _ _ Hs) as (c & Hin & Hc). exists c.
    split; [|done]. apply elem_of_app. by left. }
  destruct ev as [cookieHeader socketId | closing]; simpl.
  - unfold SocketIOAdapter.connect.
    destruct (SocketIOAdapter.authenticate _ _ cookieHeader) as [v|e] eqn:Hauth;
      simpl; [|apply Hold].
    assert (Hnew : ∃ c, SocketIOAdapter.Connect c socketId ∈ evs ++ [SocketIOAdapter.Connect cookieHeader socketId]
                        ∧ SocketIOAdapter.authenticate cookie_parse validateToken c
                          = SocketIOAdapter.Accepted v).
    { exists cookieHeader. split; [|done].
      apply elem_of_app. right. apply list_elem_of_here. }
    unfold SocketIOAdapter.Table_set. case_bool_decide as Hv; simpl.
    + intros [Hs|[-> [= <-]]]; [apply Hold; by left|]. by subst v.
    + intros [Hs|Hs]; [|apply Hold; by right].
      destruct (decide (v = user)) as [->|Hne].
      * rewrite lookup_insert_eq in Hs. by injection Hs as <-.
      * rewrite lookup_insert_ne in Hs by done. apply Hold. by left.
  - unfold SocketIOAdapter.on_disconnect.
    destruct (SocketIOAdapter.Table_get _ _); [apply Hold| |apply Hold].
    case_bool_decide; [|apply Hold]. simpl.
    intros [[_ Hs]%lookup_delete_Some|Hs]; apply Hold; [by left|by right].
Qed.

(** Witness of X4: one admitted connection among refused ones. *)
Lemma bound_socket_was_admitted_witness :
  ∃ cookieHeader,
    SocketIOAdapter.Connect cookieHeader "socket-1"
      ∈ [SocketIOAdapter.Connect None "socket-0";
         SocketIOAdapter.Connect (Some "authToken=good") "socket-1";
         SocketIOAdapter.Connect (Some "authToken=bad") "socket-2"]
    ∧ SocketIOAdapter.authenticate Sample.cookie_parse Sample.validateToken cookieHeader
      = SocketIOAdapter.Accepted "testUser".
Proof.
  apply (@bound_socket_was_admitted sample_sockets Sample.cookie_parse Sample.validateToken
           [SocketIOAdapter.Connect None "socket-0";
            SocketIOAdapter.Connect (Some "authToken=good") "socket-1";
            SocketIOAdapter.Connect (Some "authToken=bad") "socket-2"]
           "testUser" Sample.first).
  left. vm_compute. reflexivity.
Defined.

Lemma run_snoc `{SocketIOAdapter.SocketClass} (cookie_parse : string → gmap string string)
    (validateToken : string → Completion (option string))
    (evs : list SocketIOAdapter.Lifecycle) (ev : SocketIOAdapter.Lifecycle) :
  SocketIOAdapter.run cookie_parse validateToken (evs ++ [ev])
  = SocketIOAdapter.step cookie_parse validateToken
      (SocketIOAdapter.run cookie_parse validateToken evs) ev.
Proof. unfold SocketIOAdapter.run. by rewrite foldl_app. Qed.

(** Once the adapter is initialised, [sendToUser] goes by what the read of
    the table finds. *)
Lemma sendToUser_initialized `{Runtime} `{SocketIOAdapter.SocketClass}
    (a : SocketIOAdapter.t) (user : string) (messageJson : JsValue) :
  SocketIOAdapter.isInitialized a = true →
  SocketIOAdapter.sendToUser a (JStr user) messageJson
  = match SocketIOAdapter.Table_get (SocketIOAdapter.userSocketMap a) user with
    | SocketIOAdapter.Bound userSocket =>
        Normal [SocketIOAdapter.SocketEmit (SocketIOAdapter.id userSocket)
                  "user-specific-event" messageJson]
    | SocketIOAdapter.Foreign emit => emit "user-specific-event" messageJson
    | SocketIOAdapter.Absent => Normal []
    end.
Proof.
  intros Ha. unfold SocketIOAdapter.sendToUser. by rewrite Ha.
Qed.

(** A connection admitted as a user makes the read of the table under
    that user find the new socket. *)
Lemma run_connect_bound `{SocketIOAdapter.SocketClass}
    (cookie_parse : string → gmap string string)
    (validateToken : string → Completion (option string))
    (evs : list SocketIOAdapter.Lifecycle) (cookieHeader : option string)
    (socketId user : string) :
  SocketIOAdapter.authenticate cookie_parse validateToken cookieHeader
  = SocketIOAdapter.Accepted user →
  SocketIOAdapter.Table_get
    (SocketIOAdapter.userSocketMap
       (SocketIOAdapter.run cookie_parse validateToken
          (evs ++ [SocketIOAdapter.Connect cookieHeader socketId]))) user
  = SocketIOAdapter.Bound {| SocketIOAdapter.id := socketId; SocketIOAdapter.userId := user |}.
Proof.
  intros Hauth. rewrite run_snoc. simpl. unfold SocketIOAdapter.connect.
  rewrite Hauth. cbn [snd SocketIOAdapter.on_connection SocketIOAdapter.userSocketMap
    SocketIOAdapter.userId].
  apply Table_get_set_eq.
Qed.

(** The prototype of the table changes only by a connection admitted
    under [__proto__]. *)
Lemma step_prototype `{SocketIOAdapter.SocketClass}
    (cookie_parse : string → gmap string string)
    (validateToken : string → Completion (option string))
    (a : SocketIOAdapter.t) (ev : SocketIOAdapter.Lifecycle) :
  ¬ rebases cookie_parse validateToken ev →
  SocketIOAdapter.prototype
    (SocketIOAdapter.userSocketMap (SocketIOAdapter.step cookie_parse validateToken a ev))
  = SocketIOAdapter.prototype (SocketIOAdapter.userSocketMap a).
Proof.
  intros Hev. destruct ev as [cookieHeader socketId | closing]; simpl in *.
  - unfold SocketIOAdapter.connect.
    destruct (SocketIOAdapter.authenticate _ _ cookieHeader) as [v|e]; [|done].
    simpl. unfold SocketIOAdapter.Table_set.
    case_bool_decide; [|done]. by subst v.
  - unfold SocketIOAdapter.on_disconnect.
    destruct (SocketIOAdapter.Table_get _ _); [done| |done]. by case_bool_decide.
Qed.

(** X5. After a connection admitted as a user, whatever happened before
    and whatever the user id, [sendToUser] for that user emits on the new
    socket and on no other, and the disconnection of a socket of another
    id does not change that. After the disconnection of the new socket
    itself, [sendToUser] for the user emits nothing, provided the user id
    is not [__proto__] and names no member of [Object.prototype], and no
    socket has been put in the place of the table's prototype. *)
Theorem sendToUser_follows_last_connection `{Runtime} `{SocketIOAdapter.SocketClass}
    (cookie_parse : string → gmap string string)
    (validateToken : string → Completion (option string))
    (evs : list SocketIOAdapter.Lifecycle) (cookieHeader : option string)
    (socketId user : string) (messageJson : JsValue) :
  SocketIOAdapter.authenticate cookie_parse validateToken cookieHeader
  = SocketIOAdapter.Accepted user →
  let run := SocketIOAdapter.run cookie_parse validateToken in
  let connected := evs ++ [SocketIOAdapter.Connect cookieHeader socketId] in
  let delivered := Normal [SocketIOAdapter.SocketEmit socketId "user-specific-event"
                             messageJson] in
  SocketIOAdapter.sendToUser (run connected) (JStr user) messageJson = delivered
  ∧ (∀ older, SocketIOAdapter.id older ≠ socketId →
       SocketIOAdapter.sendToUser
         (run (connected ++ [SocketIOAdapter.Disconnect older])) (JStr user) messageJson
       = delivered)
  ∧ (user ∉ "__proto__" :: SocketIOAdapter.Object_prototype_names →
     SocketIOAdapter.prototype (SocketIOAdapter.userSocketMap (run evs)) = None →
     SocketIOAdapter.sendToUser
       (run (connected
             ++ [SocketIOAdapter.Disconnect
                   {| SocketIOAdapter.id := socketId; SocketIOAdapter.userId := user |}]))
       (JStr user) messageJson
     = Normal []).
Proof.
  intros Hauth run connected delivered. subst run connected delivered.
  pose proof (run_connect_bound cookie_parse validateToken evs cookieHeader socketId
                user Hauth) as Hbound.
  split; [|split].
  - rewrite sendToUser_initialized by apply run_isInitialized. by rewrite Hbound.
  - intros older Hid.
    rewrite sendToUser_initialized by apply run_isInitialized.
    rewrite run_snoc. cbn [SocketIOAdapter.step].
    set (a := SocketIOAdapter.run cookie_parse validateToken
                (evs ++ [SocketIOAdapter.Connect cookieHeader socketId])) in *.
    assert (Hkept : SocketIOAdapter.on_disconnect a older = a
                    ∨ SocketIOAdapter.userId older ≠ user).
    { destruct (decide (SocketIOAdapter.userId older = user)) as [Hu|Hu]; [left|by right].
      unfold SocketIOAdapter.on_disconnect. rewrite Hu, Hbound.
      cbn [SocketIOAdapter.id]. by rewrite bool_decide_eq_false_2. }
    destruct Hkept as [->|Hu]; [by rewrite Hbound|].
    rewrite on_disconnect_get_ne by (left; congruence). by rewrite Hbound.
  - intros Huser Hproto.
    rewrite sendToUser_initialized by apply run_isInitialized.
    rewrite run_snoc. cbn [SocketIOAdapter.step].
    set (a := SocketIOAdapter.run cookie_parse validateToken
                (evs ++ [SocketIOAdapter.Connect cookieHeader socketId])) in *.
    assert (Hplain : SocketIOAdapter.prototype (SocketIOAdapter.userSocketMap a) = None).
    { subst a. rewrite run_snoc, step_prototype; [done|].
      simpl. rewrite Hauth. intros [= ->]. apply Huser, list_elem_of_here. }
    unfold SocketIOAdapter.on_disconnect.
    cbn [SocketIOAdapter.userId SocketIOAdapter.id]. rewrite Hbound.
    cbn [SocketIOAdapter.id]. rewrite bool_decide_eq_true_2 by done.
    cbn [SocketIOAdapter.userSocketMap].
    rewrite Table_get_absent; [done|done|done|].
    cbn [SocketIOAdapter.Reflect_deleteProperty SocketIOAdapter.entries].
    apply lookup_delete_eq.
Qed.

(** Witness of X5: the user connects on a second socket after a first. *)
Lemma sendToUser_follows_last_connection_witness :
  @SocketIOAdapter.sendToUser sample_runtime sample_sockets
    (@SocketIOAdapter.run sample_sockets Sample.cookie_parse Sample.validateToken
       ([SocketIOAdapter.Connect (Some "authToken=good") "socket-1"]
        ++ [SocketIOAdapter.Connect (Some "authToken=good") "socket-2"]))
    (JStr "testUser") JNull
  = Normal [SocketIOAdapter.SocketEmit "socket-2" "user-specific-event" JNull]
  ∧ @SocketIOAdapter.sendToUser sample_runtime sample_sockets
      (@SocketIOAdapter.run sample_sockets Sample.cookie_parse Sample.validateToken
         (([SocketIOAdapter.Connect (Some "authToken=good") "socket-1"]
           ++ [SocketIOAdapter.Connect (Some "authToken=good") "socket-2"])
          ++ [SocketIOAdapter.Disconnect
                {| SocketIOAdapter.id := "socket-2";
                   SocketIOAdapter.userId := "testUser" |}]))
      (JStr "testUser") JNull
    = Normal [].
Proof.
  destruct (@sendToUser_follows_last_connection sample_runtime sample_sockets
              Sample.cookie_parse Sample.validateToken
              [SocketIOAdapter.Connect (Some "authToken=good") "socket-1"]
              (Some "authToken=good") "socket-2" "testUser" JNull)
    as (Hnew & _ & Hclosed).
  { vm_compute. reflexivity. }
  split; [exact Hnew|]. apply Hclosed.
  - apply (bool_decide_unpack _). vm_compute. exact I.
  - vm_compute. reflexivity.
Defined.

(** X6. A lifecycle event that does not concern a user, be it a refused
    attempt, a connection admitted as another user or the disconnection of
    another user's socket, leaves the own property the table has for that
    user as it was; unless the event is a connection admitted under
    [__proto__], which changes the prototype of the table, it also leaves
    what the read of the table finds for that user and the outcome of
    [sendToUser] for that user as they were. *)
Theorem lifecycle_frames_other_users `{Runtime} `{SocketIOAdapter.SocketClass}
    (cookie_parse : string → gmap string string)
    (validateToken : string → Completion (option string))
    (a : SocketIOAdapter.t) (ev : SocketIOAdapter.Lifecycle) (user : string)
    (messageJson : JsValue) :
  ¬ concerns cookie_parse validateToken ev user →
  let a' := SocketIOAdapter.step cookie_parse validateToken a ev in
  SocketIOAdapter.entries (SocketIOAdapter.userSocketMap a') !! user
  = SocketIOAdapter.entries (SocketIOAdapter.userSocketMap a) !! user
  ∧ (¬ rebases cookie_parse validateToken ev →
     SocketIOAdapter.Table_get (SocketIOAdapter.userSocketMap a') user
     = SocketIOAdapter.Table_get (SocketIOAdapter.userSocketMap a) user
     ∧ SocketIOAdapter.sendToUser a' (JStr user) messageJson
       = SocketIOAdapter.sendToUser a (JStr user) messageJson).
Proof.
  intros Hother a'. subst a'. split.
  - destruct ev as [cookieHeader socketId | closing]; simpl in *.
    + unfold SocketIOAdapter.connect.
      destruct (SocketIOAdapter.authenticate _ _ cookieHeader) as [v|e]; [|done].
      simpl. unfold SocketIOAdapter.Table_set. case_bool_decide; [done|].
      simpl. apply lookup_insert_ne. congruence.
    + unfold SocketIOAdapter.on_disconnect.
      destruct (SocketIOAdapter.Table_get _ _); [done| |done].
      case_bool_decide; [|done]. simpl. by apply lookup_delete_ne.
  - intros Hplain.
    assert (Hsame : SocketIOAdapter.Table_get
                      (SocketIOAdapter.userSocketMap
                         (SocketIOAdapter.step cookie_parse validateToken a ev)) user
                    = SocketIOAdapter.Table_get (SocketIOAdapter.userSocketMap a) user).
    { destruct ev as [cookieHeader socketId | closing]; simpl in *.
      - unfold SocketIOAdapter.connect.
        destruct (SocketIOAdapter.authenticate _ _ cookieHeader) as [v|e]; [|done].
        cbn [snd SocketIOAdapter.on_connection SocketIOAdapter.userSocketMap
          SocketIOAdapter.userId].
        apply Table_get_set_ne; congruence.
      - apply on_disconnect_get_ne. left. congruence. }
    split; [exact Hsame|].
    unfold SocketIOAdapter.sendToUser.
    rewrite step_isInitialized. cbn [toString mbind Completion_bind]. by rewrite Hsame.
Qed.

(** Witness of X6: another user's socket disconnects. *)
Lemma lifecycle_frames_other_users_witness :
  let a := @SocketIOAdapter.run sample_sockets Sample.cookie_parse Sample.validateToken
             [SocketIOAdapter.Connect (Some "authToken=good") "socket-1"] in
  let other := {| SocketIOAdapter.id := "socket-1"; SocketIOAdapter.userId := "testUserB" |} in
  let a' := @SocketIOAdapter.step sample_sockets Sample.cookie_parse Sample.validateToken a
              (SocketIOAdapter.Disconnect other) in
  @SocketIOAdapter.Table_get sample_sockets (SocketIOAdapter.userSocketMap a') "testUser"
  = @SocketIOAdapter.Table_get sample_sockets (SocketIOAdapter.userSocketMap a) "testUser".
Proof.
  intros a other a'.
  destruct (@lifecycle_frames_other_users sample_runtime sample_sockets Sample.cookie_parse
              Sample.validateToken a (SocketIOAdapter.Disconnect other) "testUser" JNull)
    as [_ Hread].
  { simpl. discriminate. }
  apply Hread. simpl. tauto.
Defined.

(** X21. For a socket whose user id is not [__proto__]: the connection
    handler makes the table point at the socket, whatever it held for that
    user id, and leaves what it finds under every other user id; the
    disconnect handler removes the own property of the user id exactly
    when the table still holds a socket of the same id under it, and
    otherwise changes nothing; so a socket superseded by a newer one of
    the same user leaves the newer one in place when it disconnects. The
    first and the last of these hold under [__proto__] as well. *)
Theorem userSocketMap_last_connect_wins `{SocketIOAdapter.SocketClass}
    (a : SocketIOAdapter.t) (socket : SocketIOAdapter.Socket) :
  let uid := SocketIOAdapter.userId socket in
  let table := SocketIOAdapter.userSocketMap in
  let read := λ a u, SocketIOAdapter.Table_get (table a) u in
  read (SocketIOAdapter.on_connection a socket) uid = SocketIOAdapter.Bound socket
  ∧ (uid ≠ "__proto__" →
     ∀ u, u ≠ uid → read (SocketIOAdapter.on_connection a socket) u = read a u)
  ∧ (uid ≠ "__proto__" →
     ∀ mapped, SocketIOAdapter.entries (table a) !! uid = Some mapped →
       SocketIOAdapter.id mapped = SocketIOAdapter.id socket →
       table (SocketIOAdapter.on_disconnect a socket)
       = {| SocketIOAdapter.entries := delete uid (SocketIOAdapter.entries (table a));
            SocketIOAdapter.prototype := SocketIOAdapter.prototype (table a) |}
       ∧ SocketIOAdapter.entries (table (SocketIOAdapter.on_disconnect a socket)) !! uid
         = None)
  ∧ (∀ mapped, read a uid = SocketIOAdapter.Bound mapped →
       SocketIOAdapter.id mapped ≠ SocketIOAdapter.id socket →
       SocketIOAdapter.on_disconnect a socket = a)
  ∧ (SocketIOAdapter.entries (table a) !! uid = None →
     SocketIOAdapter.on_disconnect a socket = a)
  ∧ (∀ newer, SocketIOAdapter.userId newer = uid →
       SocketIOAdapter.id newer ≠ SocketIOAdapter.id socket →
       read (SocketIOAdapter.on_disconnect
               (SocketIOAdapter.on_connection (SocketIOAdapter.on_connection a socket) newer)
               socket) uid
       = SocketIOAdapter.Bound newer).
Proof.
  intros uid table read. subst uid table read. cbv beta.
  split; [|split; [|split; [|split; [|split]]]].
  - apply Table_get_set_eq.
  - intros Huid u Hu. by apply Table_get_set_ne.
  - intros Huid mapped Hm Hid. unfold SocketIOAdapter.on_disconnect.
    rewrite (Table_get_entry _ _ mapped) by done.
    rewrite bool_decide_eq_true_2 by done.
    split; [done|]. simpl. apply lookup_delete_eq.
  - intros mapped Hm Hid. unfold SocketIOAdapter.on_disconnect.
    rewrite Hm. by rewrite bool_decide_eq_false_2.
  - apply on_disconnect_no_entry.
  - intros newer Hu Hid. unfold SocketIOAdapter.on_disconnect.
    assert (Hnewer : SocketIOAdapter.Table_get
                       (SocketIOAdapter.userSocketMap
                          (SocketIOAdapter.on_connection
                             (SocketIOAdapter.on_connection a socket) newer))
                       (SocketIOAdapter.userId socket)
                     = SocketIOAdapter.Bound newer).
    { rewrite <- Hu. apply Table_get_set_eq. }
    rewrite Hnewer. by rewrite bool_decide_eq_false_2.
Qed.

(** Witness of X21: the same user connects twice, then the first socket
    disconnects; the table still resolves the user to the second socket. *)
Lemma userSocketMap_last_connect_wins_witness :
  @SocketIOAdapter.Table_get sample_sockets
    (SocketIOAdapter.userSocketMap
       (@SocketIOAdapter.on_disconnect sample_sockets
          (SocketIOAdapter.on_connection
             (SocketIOAdapter.on_connection SocketIOAdapter.constructor Sample.first)
             Sample.second)
          Sample.first)) "testUser"
  = SocketIOAdapter.Bound Sample.second
  ∧ SocketIOAdapter.entries
      (SocketIOAdapter.userSocketMap
         (@SocketIOAdapter.on_disconnect sample_sockets
            (SocketIOAdapter.on_connection SocketIOAdapter.constructor Sample.first)
            Sample.first)) !! "testUser"
    = None.
Proof.
  destruct (@userSocketMap_last_connect_wins sample_sockets SocketIOAdapter.constructor
              Sample.first) as (_ & _ & _ & _ & _ & Hnewer).
  destruct (@userSocketMap_last_connect_wins sample_sockets
              (SocketIOAdapter.on_connection SocketIOAdapter.constructor Sample.first)
              Sample.first) as (_ & _ & Hremoved & _).
  split.
  - apply (Hnewer Sample.second); [reflexivity|discriminate].
  - apply (Hremoved ltac:(discriminate) Sample.first); reflexivity.
Defined.

(** X22. In every state the adapter reaches from its construction through
    connections and disconnections, and for every user id other than
    [__proto__]: when the table has an own property for the user id,
    [sendToUser] emits the message on that socket, which is a socket of
    that user, and on nothing else; when the table has none, its
    prototype is still [Object.prototype] and the user id names no member
    of it, [sendToUser] returns normally and emits nothing. *)
Theorem sendToUser_bound_or_silent `{Runtime} `{SocketIOAdapter.SocketClass}
    (cookie_parse : string → gmap string string)
    (validateToken : string → Completion (option string))
    (evs : list SocketIOAdapter.Lifecycle) (userId : string) (messageJson : JsValue) :
  userId ≠ "__proto__" →
  let a := SocketIOAdapter.run cookie_parse validateToken evs in
  let table := SocketIOAdapter.userSocketMap a in
  (∀ userSocket, SocketIOAdapter.entries table !! userId = Some userSocket →
     SocketIOAdapter.userId userSocket = userId
     ∧ SocketIOAdapter.sendToUser a (JStr userId) messageJson
       = Normal [SocketIOAdapter.SocketEmit (SocketIOAdapter.id userSocket)
                   "user-specific-event" messageJson])
  ∧ (SocketIOAdapter.entries table !! userId = None →
     SocketIOAdapter.prototype table = None →
     userId ∉ SocketIOAdapter.Object_prototype_names →
     SocketIOAdapter.sendToUser a (JStr userId) messageJson = Normal []).
Proof.
  intros Huser a table. subst a table.
  rewrite sendToUser_initialized by apply run_isInitialized. split.
  - intros userSocket Hs. split; [by eapply run_keyed|].
    by rewrite (Table_get_entry _ _ userSocket).
  - intros Hnone Hproto Hnames. rewrite Table_get_absent; [done| |done|done].
    by apply not_elem_of_cons.
Qed.

(** Witness of X22: the user connects on one socket; a message for that
    user goes to the socket, a message for another user goes nowhere. *)
Lemma sendToUser_bound_or_silent_witness :
  let a := @SocketIOAdapter.run sample_sockets Sample.cookie_parse Sample.validateToken
             [SocketIOAdapter.Connect (Some "authToken=good") "socket-1"] in
  let message := JObj [("test", JStr "personal-msg")] in
  @SocketIOAdapter.sendToUser sample_runtime sample_sockets a (JStr "testUser") message
  = Normal [SocketIOAdapter.SocketEmit "socket-1" "user-specific-event" message]
  ∧ @SocketIOAdapter.sendToUser sample_runtime sample_sockets a (JStr "nobody") message
    = Normal [].
Proof.
  intros a message.
  destruct (@sendToUser_bound_or_silent sample_runtime sample_sockets Sample.cookie_parse
              Sample.validateToken
              [SocketIOAdapter.Connect (Some "authToken=good") "socket-1"]
              "testUser" message) as [Hbound _]; [discriminate|].
  destruct (@sendToUser_bound_or_silent sample_runtime sample_sockets Sample.cookie_parse
              Sample.validateToken
              [SocketIOAdapter.Connect (Some "authToken=good") "socket-1"]
              "nobody" message) as [_ Hsilent]; [discriminate|].
  split.
  - apply (Hbound Sample.first). vm_compute. reflexivity.
  - apply Hsilent.
    + vm_compute. reflexivity.
    + vm_compute. reflexivity.
    + apply (bool_decide_unpack _). vm_compute. exact I.
Defined.

(** ** Validation and routing in the service *)


(** What the three checks amount to on a truthy body of a known kind. *)
Lemma isValidEventData_known_kind (eventJson : JsValue) (kind : string) (body : JsValue) :
  get_prop eventJson "eventType" = Normal (JStr kind) →
  kind ∈ EventType.values →
  get_prop eventJson "payload" = Normal body →
  EventService.isValidEventData eventJson
  = (len ← get_prop body "length";
     if strict_equals_zero len then Normal false else Normal true).
Proof.
  intros Hkind Hin Hbody. unfold EventService.isValidEventData.
  rewrite (get_prop_string_truthy _ _ _ Hkind), Hkind. simpl.
  rewrite bool_decide_eq_true_2 by done. simpl. by rewrite Hbody.
Qed.

(** An event on which the checks do not return [false] is a truthy body of
    a known kind. *)
Lemma isValidEventData_not_false (eventJson : JsValue) :
  EventService.isValidEventData eventJson ≠ Normal false →
  ∃ kind body,
    get_prop eventJson "eventType" = Normal (JStr kind)
    ∧ kind ∈ EventType.values
    ∧ get_prop eventJson "payload" = Normal body.
Proof.
  unfold EventService.isValidEventData.
  destruct (truthy eventJson) eqn:Ht; [|done]. simpl.
  destruct (truthy_get_prop eventJson "eventType" Ht) as [k Hk].
  destruct (truthy_get_prop eventJson "payload" Ht) as [body Hbody].
  rewrite Hk. simpl.
  destruct (EventService.includes EventType.values k) eqn:Hinc; [|done].
  destruct k; simpl in Hinc; try discriminate.
  apply bool_decide_eq_true_1 in Hinc. intros _. eauto.
Qed.


(** The kinds the two handlers of the service are registered for. *)
Lemma EventService_constructor_lookup `{Runtime} {W : Type} `{Clock W}
    (eventOutput : EventOutputPort W) (notificationService : NotificationServicePort W)
    (kind : string) :
  kind ∈ EventType.values →
  EventService.constructor eventOutput notificationService !! kind
  = Some [if bool_decide (kind = EventType.USER_NOTIFICATION)
          then UserNotificationHandler.instance eventOutput 1
          else CryptoUpdateHandler.instance eventOutput notificationService 0].
Proof.
  intros Hin. unfold EventService.constructor. rewrite constructor_lookup.
  unfold registered_for, registrations.
  cbn [mbind list_bind fmap list_fmap app eventTypes CryptoUpdateHandler.instance
       UserNotificationHandler.instance CryptoUpdateHandler.eventTypes
       UserNotificationHandler.eventTypes].
  rewrite !filter_cons, !filter_nil. cbn [fst].
  repeat (apply elem_of_cons in Hin as [->|Hin]; [by vm_compute|]).
  by apply elem_of_nil in Hin.
Qed.

(** X8. On the service as its constructor builds it, over any ports, every
    event that passes validation is handed to exactly one handler: the
    user-notification handler for the USER_NOTIFICATION kind and the
    crypto-update handler for the two other kinds; so no validated event
    fails for want of a handler. *)
Theorem EventService_routes_every_valid_event `{Runtime} {W : Type} `{Clock W}
    (eventOutput : EventOutputPort W) (notificationService : NotificationServicePort W)
    (eventJson : JsValue) (w : W) :
  EventService.isValidEventData eventJson = Normal true →
  let p := EventService.processEvent
             (EventService.constructor eventOutput notificationService) eventJson w in
  let event := EventService.as_Event eventJson in
  handled p
  = [(if strict_equals_string (eventType event) EventType.USER_NOTIFICATION then 1 else 0,
      event)].
Proof.
  intros Hv p event. subst p event.
  destruct (isValidEventData_not_false eventJson) as (kind & body & Hk & Hin & Hb);
    [by rewrite Hv|].
  unfold EventService.processEvent, EventService.as_Event. rewrite Hv, Hk, Hb.
  unfold DomainEventDispatcher.dispatch, DomainEventDispatcher.Map_get.
  cbn [eventType strict_equals_string].
  rewrite (EventService_constructor_lookup _ _ _ Hin).
  cbn [DomainEventDispatcher.forEach_handle].
  destruct (decide (kind = EventType.USER_NOTIFICATION)) as [->|Hne].
  - rewrite !bool_decide_eq_true_2 by done.
    by destruct (handle _ _ _) as [[[]|e] w1].
  - rewrite !bool_decide_eq_false_2 by congruence.
    by destruct (handle _ _ _) as [[[]|e] w1].
Qed.

(** Witness of X8: the EUR event on the recording ports. *)
Lemma EventService_routes_every_valid_event_witness :
  handled (@EventService.processEvent sample_runtime _
             (@Recorder.eventService (λ _, "") sample_runtime)
             Sample.eurEventJson {| Recorder.calls := []; Recorder.reads := 0 |})
  = [(0, Sample.eurEvent)].
Proof.
  apply (@EventService_routes_every_valid_event sample_runtime Recorder.t
           (Recorder.t_clock (λ _, "")) (Recorder.eventOutput)
           (Recorder.notificationService) Sample.eurEventJson).
  vm_compute. reflexivity.
Defined.

(** ** The relay message *)

Lemma get_prop_not_nullish (v : JsValue) (name : string) :
  nullish v = false → ∃ x, get_prop v name = Normal x.
Proof. destruct v; simpl; try discriminate; eauto. Qed.

Lemma get_prop_nullish (v : JsValue) (name : string) :
  nullish v = true → get_prop v name = Throw TypeError.
Proof. by destruct v. Qed.

(** The callback of [map] fails on [null] and [undefined] only. *)
Lemma project_not_nullish (crypto : JsValue) :
  nullish crypto = false →
  ∃ id symbol price,
    NotificationUpdateMessage.project crypto
    = Normal (JObj [("id", id); ("symbol", symbol); ("price", price)]).
Proof.
  intros Hn. unfold NotificationUpdateMessage.project.
  destruct (get_prop_not_nullish crypto "id" Hn) as [id ->].
  destruct (get_prop_not_nullish crypto "symbol" Hn) as [symbol ->].
  destruct (get_prop_not_nullish crypto "price" Hn) as [price ->].
  by exists id, symbol, price.
Qed.

Lemma project_nullish (crypto : JsValue) :
  nullish crypto = true → NotificationUpdateMessage.project crypto = Throw TypeError.
Proof.
  intros Hn. unfold NotificationUpdateMessage.project.
  rewrite (get_prop_nullish crypto "id" Hn). reflexivity.
Qed.

(** X9. The projection keeps the three fields id, symbol and price and
    nothing else, and projecting a projected record changes nothing. *)
Theorem project_idempotent (crypto projected : JsValue) :
  NotificationUpdateMessage.project crypto = Normal projected →
  (∃ id symbol price,
     projected = JObj [("id", id); ("symbol", symbol); ("price", price)]
     ∧ get_prop crypto "id" = Normal id
     ∧ get_prop crypto "symbol" = Normal symbol
     ∧ get_prop crypto "price" = Normal price)
  ∧ NotificationUpdateMessage.project projected = Normal projected.
Proof.
  unfold NotificationUpdateMessage.project at 1.
  destruct (get_prop crypto "id") as [id|] eqn:Hid; [|done].
  destruct (get_prop crypto "symbol") as [symbol|] eqn:Hsymbol; [|done].
  destruct (get_prop crypto "price") as [price|] eqn:Hprice; [|done].
  cbn [mbind Completion_bind]. intros [= <-].
  split; [by exists id, symbol, price|]. reflexivity.
Qed.

(** Witness of X9: a price record with more fields than the three. *)
Lemma project_idempotent_witness :
  NotificationUpdateMessage.project
    (JObj [("id", JStr "bitcoin"); ("symbol", JStr "btc"); ("price", JStr "102809")])
  = Normal (JObj [("id", JStr "bitcoin"); ("symbol", JStr "btc"); ("price", JStr "102809")]).
Proof.
  apply (project_idempotent
           (JObj [("id", JStr "bitcoin"); ("symbol", JStr "btc");
                  ("name", JStr "Bitcoin"); ("price", JStr "102809")])).
  reflexivity.
Defined.

Lemma mapM_project_not_nullish (elems : list JsValue) :
  Forall (λ x, nullish x = false) elems →
  ∃ projected,
    mapM NotificationUpdateMessage.project elems = Normal projected
    ∧ Forall2 (λ x p, NotificationUpdateMessage.project x = Normal p) elems projected.
Proof.
  induction 1 as [|x elems Hx _ (projected & Hmap & Hall)].
  - exists []. split; [reflexivity|constructor].
  - destruct (project_not_nullish x Hx) as (id & symbol & price & Hp).
    eexists (_ :: projected). split.
    + cbn [mapM]. rewrite Hp, Hmap. reflexivity.
    + by constructor.
Qed.

Lemma mapM_project_nullish (elems : list JsValue) :
  Exists (λ x, nullish x = true) elems →
  mapM NotificationUpdateMessage.project elems = Throw TypeError.
Proof.
  induction elems as [|x elems IH]; intros Hex; [by apply Exists_nil in Hex|].
  cbn [mapM]. destruct (nullish x) eqn:Hx.
  - by rewrite (project_nullish x Hx).
  - destruct (project_not_nullish x Hx) as (id & symbol & price & ->).
    apply Exists_cons in Hex as [Hx'|Hex]; [congruence|].
    by rewrite (IH Hex).
Qed.

(** X10. [createNotificationUpdateMessage] returns a message exactly when
    the payload is a sequence none of whose elements is [null] or
    [undefined]: the message then carries the timestamp given and one
    projection for each element, in order. On any other payload it throws a
    TypeError. *)
Theorem createNotificationUpdateMessage_outcome (timestamp : string)
    (eventInbound : Event) :
  (∀ elems, payload eventInbound = JArr elems →
     Forall (λ x, nullish x = false) elems →
     ∃ projected,
       NotificationUpdateMessage.createNotificationUpdateMessage timestamp eventInbound
       = Normal (JObj [("timestamp", JStr timestamp); ("payload", JArr projected)])
       ∧ length projected = length elems
       ∧ Forall2 (λ x p, NotificationUpdateMessage.project x = Normal p) elems projected)
  ∧ (∀ elems, payload eventInbound = JArr elems →
       Exists (λ x, nullish x = true) elems →
       NotificationUpdateMessage.createNotificationUpdateMessage timestamp eventInbound
       = Throw TypeError)
  ∧ ((∀ elems, payload eventInbound ≠ JArr elems) →
     NotificationUpdateMessage.createNotificationUpdateMessage timestamp eventInbound
     = Throw TypeError).
Proof.
  unfold NotificationUpdateMessage.createNotificationUpdateMessage,
    NotificationUpdateMessage.Array_map.
  split; [|split].
  - intros elems -> Hall.
    destruct (mapM_project_not_nullish elems Hall) as (projected & Hmap & Hproj).
    exists projected. rewrite Hmap. split; [reflexivity|]. split; [|done].
    symmetry. by eapply Forall2_length.
  - intros elems -> Hex. by rewrite (mapM_project_nullish elems Hex).
  - intros Hnot. destruct (payload eventInbound) as [| | | | |elems|]; try done.
    by destruct (Hnot elems).
Qed.

(** Witness of X10: a sequence holding a record and [null]. *)
Lemma createNotificationUpdateMessage_outcome_witness :
  NotificationUpdateMessage.createNotificationUpdateMessage "2025-01-28T12:18:33.307Z"
    {| eventType := JStr EventType.CRYPTO_UPDATE_EUR;
       payload := JArr [JObj [("id", JStr "bitcoin")]; JNull] |}
  = Throw TypeError.
Proof.
  destruct (createNotificationUpdateMessage_outcome "2025-01-28T12:18:33.307Z"
              {| eventType := JStr EventType.CRYPTO_UPDATE_EUR;
                 payload := JArr [JObj [("id", JStr "bitcoin")]; JNull] |})
    as (_ & Hnull & _).
  apply (Hnull [JObj [("id", JStr "bitcoin")]; JNull]); [reflexivity|].
  apply Exists_cons_tl, Exists_cons_hd. reflexivity.
Defined.

(** ** The handlers at their edges *)

(** X11. The crypto-update handler calls a port only for an event of the
    EUR or the USD kind whose payload is a sequence without [null] and
    [undefined] elements: on every other event the calls recorded after it
    are the calls recorded before it. *)
Theorem cryptoUpdate_calls_only_for_its_kinds (clock : nat → string) (event : Event)
    (w : Recorder.t) :
  Recorder.calls (Recorder.cryptoUpdateHandler clock event w).2 ≠ Recorder.calls w →
  (eventType event = JStr EventType.CRYPTO_UPDATE_EUR
   ∨ eventType event = JStr EventType.CRYPTO_UPDATE_USD)
  ∧ ∃ elems, payload event = JArr elems ∧ Forall (λ x, nullish x = false) elems.
Proof.
  unfold Recorder.cryptoUpdateHandler, CryptoUpdateHandler.handle.
  cbn [now_toISOString Recorder.t_clock Recorder.reads Recorder.calls].
  unfold NotificationUpdateMessage.createNotificationUpdateMessage,
    NotificationUpdateMessage.Array_map.
  destruct (payload event) as [| | | | |elems|] eqn:Hp; try (cbn; done).
  destruct (decide (Forall (λ x, nullish x = false) elems)) as [Hall|Hsome].
  - destruct (mapM_project_not_nullish elems Hall) as (projected & -> & _).
    cbn [mbind Completion_bind].
    destruct (strict_equals_string (eventType event) EventType.CRYPTO_UPDATE_EUR) eqn:He.
    { intros _. apply strict_equals_string_spec in He. eauto. }
    destruct (strict_equals_string (eventType event) EventType.CRYPTO_UPDATE_USD) eqn:Hu.
    { intros _. apply strict_equals_string_spec in Hu. eauto. }
    cbn. done.
  - rewrite (mapM_project_nullish elems); [cbn; done|].
    apply not_Forall_Exists in Hsome; [|solve_decision].
    eapply Exists_impl; [exact Hsome|]. intros x Hx. simpl in Hx.
    by destruct (nullish x).
Qed.

(** Witness of X11: the EUR event, on which the handler does call. *)
Lemma cryptoUpdate_calls_only_for_its_kinds_witness :
  (eventType Sample.eurEvent = JStr EventType.CRYPTO_UPDATE_EUR
   ∨ eventType Sample.eurEvent = JStr EventType.CRYPTO_UPDATE_USD)
  ∧ ∃ elems, payload Sample.eurEvent = JArr elems ∧ Forall (λ x, nullish x = false) elems.
Proof.
  apply (cryptoUpdate_calls_only_for_its_kinds (λ _, "") Sample.eurEvent
           {| Recorder.calls := []; Recorder.reads := 0 |}).
  vm_compute. discriminate.
Defined.

(** X12. On the adapters, while the socket adapter is not initialised, the
    crypto-update handler ends with the not-initialized error of the
    broadcast and the relay is not called: nothing is emitted and no request
    is made. *)
Theorem cryptoUpdate_failed_broadcast_skips_relay `{Runtime} `{SocketIOAdapter.SocketClass}
    (clock : nat → string)
    (baseUrl : string) (axios_post : string → JsValue → Completion (Promise unit))
    (event : Event) (elems : list JsValue) (w : Production.World) :
  SocketIOAdapter.isInitialized (Production.sockets w) = false →
  eventType event = JStr EventType.CRYPTO_UPDATE_EUR
  ∨ eventType event = JStr EventType.CRYPTO_UPDATE_USD →
  payload event = JArr elems →
  Forall (λ x, nullish x = false) elems →
  @CryptoUpdateHandler.handle _ (Production.World_clock clock) Production.eventOutput
    (Production.notificationService baseUrl axios_post) event w
  = (Throw (Error "SocketIOAdapter not initialized"),
     {| Production.sockets := Production.sockets w;
        Production.emitted := Production.emitted w;
        Production.relay := Production.relay w;
        Production.ticks := S (S (Production.ticks w)) |}).
Proof.
  intros Hinit Hkind Hp Hall. unfold CryptoUpdateHandler.handle.
  cbn [now_toISOString Production.World_clock Production.ticks Production.sockets
       Production.emitted Production.relay].
  unfold NotificationUpdateMessage.createNotificationUpdateMessage,
    NotificationUpdateMessage.Array_map.
  rewrite Hp. destruct (mapM_project_not_nullish elems Hall) as (projected & -> & _).
  cbn [mbind Completion_bind]. unfold strict_equals_string.
  destruct Hkind as [-> | ->].
  - rewrite bool_decide_eq_true_2 by done.
    cbn. unfold Production.deliver, SocketIOAdapter.broadcastEUR. cbn.
    by rewrite Hinit.
  - rewrite bool_decide_eq_false_2 by done. rewrite bool_decide_eq_true_2 by done.
    cbn. unfold Production.deliver, SocketIOAdapter.broadcastUSD. cbn.
    by rewrite Hinit.
Qed.

(** Witness of X12: the EUR event in a world whose adapter has not run its
    constructor body. *)
Lemma cryptoUpdate_failed_broadcast_skips_relay_witness :
  let w := {| Production.sockets := SocketIOAdapter.fresh;
              Production.emitted := [];
              Production.relay := Production.relay Sample.started;
              Production.ticks := 0 |} in
  (@CryptoUpdateHandler.handle _ (Production.World_clock (λ _, ""))
     (@Production.eventOutput sample_runtime sample_sockets)
     (Production.notificationService "http://notification:3000" Sample.relay_down)
     Sample.eurEvent w).1
  = Throw (Error "SocketIOAdapter not initialized").
Proof.
  intros w.
  rewrite (@cryptoUpdate_failed_broadcast_skips_relay sample_runtime sample_sockets (λ _, "")
             "http://notification:3000" Sample.relay_down Sample.eurEvent
             [JObj [("id", JStr "bitcoin"); ("symbol", JStr "btc")]] w).
  - reflexivity.
  - reflexivity.
  - left. reflexivity.
  - reflexivity.
  - repeat constructor.
Defined.

Lemma toString_primitive `{Runtime} (v : JsValue) :
  primitive v = true → ∃ s, toString v = Normal s.
Proof. destruct v; simpl; try discriminate; eauto. Qed.

(** X13. On a payload that is [null] or [undefined] the user-notification
    handler throws a TypeError and calls no port, whatever the ports are:
    the world is as it was. *)
Theorem userNotification_unreadable_payload `{Runtime} {W : Type}
    (eventOutput : EventOutputPort W) (event : Event) (w : W) :
  nullish (payload event) = true →
  UserNotificationHandler.handle eventOutput event w = (Throw TypeError, w).
Proof.
  intros Hn. unfold UserNotificationHandler.handle, UserNotificationHandler.notification.
  rewrite (get_prop_nullish _ "userId" Hn). reflexivity.
Qed.

(** Witness of X13: a notification whose payload is [null]. *)
Lemma userNotification_unreadable_payload_witness :
  @Recorder.userNotificationHandler sample_runtime
    {| eventType := JStr EventType.USER_NOTIFICATION; payload := JNull |}
    {| Recorder.calls := []; Recorder.reads := 0 |}
  = (Throw TypeError, {| Recorder.calls := []; Recorder.reads := 0 |}).
Proof.
  apply (@userNotification_unreadable_payload sample_runtime Recorder.t
           Recorder.eventOutput
           {| eventType := JStr EventType.USER_NOTIFICATION; payload := JNull |}).
  reflexivity.
Defined.

(** X14. On an object payload whose [cryptoId], [alertPrice] and
    [currentPrice] are neither arrays nor objects, the user-notification
    handler does not throw by itself: whatever the ports are, it is one call
    of [sendToUser], with the [userId] of the payload as it came, absent or
    not, and an object holding one message, which is the [message] of the
    payload whenever that is truthy. *)
Theorem userNotification_is_one_sendToUser `{Runtime} {W : Type}
    (eventOutput : EventOutputPort W) (event : Event)
    (props : list (string * JsValue)) (w : W) :
  payload event = JObj props →
  primitive (own_property props "cryptoId") = true →
  primitive (own_property props "alertPrice") = true →
  primitive (own_property props "currentPrice") = true →
  ∃ notificationMessage,
    UserNotificationHandler.handle eventOutput event w
    = sendToUser eventOutput (own_property props "userId")
        (JObj [("message", notificationMessage)]) w
    ∧ (truthy (own_property props "message") = true →
       notificationMessage = own_property props "message").
Proof.
  intros Hp Hc Ha Hn.
  unfold UserNotificationHandler.handle, UserNotificationHandler.notification.
  rewrite Hp. cbn [get_prop mbind Completion_bind].
  destruct (truthy (own_property props "message")) eqn:Hm.
  - eexists. split; [reflexivity|done].
  - unfold UserNotificationHandler.defaultMessage.
    destruct (toString_primitive _ Hc) as [c ->].
    destruct (toString_primitive _ Ha) as [a ->].
    destruct (toString_primitive _ Hn) as [n ->].
    cbn [mbind Completion_bind fmap Completion_fmap].
    eexists. split; [reflexivity|done].
Qed.

(** Witness of X14: a payload that carries nothing but a message. *)
Lemma userNotification_is_one_sendToUser_witness :
  ∃ notificationMessage,
    @Recorder.userNotificationHandler sample_runtime
      {| eventType := JStr EventType.USER_NOTIFICATION;
         payload := JObj [("message", JStr "hello")] |}
      {| Recorder.calls := []; Recorder.reads := 0 |}
    = (Normal (),
       {| Recorder.calls := [Recorder.SendToUser JUndefined
                               (JObj [("message", notificationMessage)])];
          Recorder.reads := 0 |}).
Proof.
  destruct (@userNotification_is_one_sendToUser sample_runtime Recorder.t
              Recorder.eventOutput
              {| eventType := JStr EventType.USER_NOTIFICATION;
                 payload := JObj [("message", JStr "hello")] |}
              [("message", JStr "hello")]
              {| Recorder.calls := []; Recorder.reads := 0 |}
              eq_refl eq_refl eq_refl eq_refl) as (m & Hcall & _).
  exists m. exact Hcall.
Defined.

(** ** The routes *)

(** X15. The notify-user route answers before the input port is reached
    in two cases, whatever the port would do: a request without a body is
    answered 500, and a body whose [userId] is falsy (absent, [null], empty,
    zero or [false]) is answered 400 with the message that names the field.
    In both cases no handler has run and the world is as it was. *)
Theorem handleNotifyUser_answers_before_processing {W : Type}
    (processEvent : JsValue → W → Processed W) (body : JsValue) (w : W) :
  (nullish body = true →
   EventAdapter.handleNotifyUser processEvent body w
   = {| EventAdapter.response := EventAdapter.internalServerError;
        EventAdapter.ran := []; EventAdapter.left := w |})
  ∧ (∀ userId, get_prop body "userId" = Normal userId → truthy userId = false →
     EventAdapter.handleNotifyUser processEvent body w
     = {| EventAdapter.response :=
            {| EventAdapter.status := 400;
               EventAdapter.json := JObj [("error", JStr "Bad Request: userId is required")] |};
          EventAdapter.ran := []; EventAdapter.left := w |}).
Proof.
  unfold EventAdapter.handleNotifyUser. split.
  - intros Hn. rewrite (get_prop_nullish body "userId" Hn). reflexivity.
  - intros userId Hu Hfalsy. rewrite Hu.
    assert (Hn : nullish body = false) by (by destruct body).
    destruct (get_prop_not_nullish body "cryptoId" Hn) as [? ->].
    destruct (get_prop_not_nullish body "alertPrice" Hn) as [? ->].
    destruct (get_prop_not_nullish body "currentPrice" Hn) as [? ->].
    destruct (get_prop_not_nullish body "alertType" Hn) as [? ->].
    destruct (get_prop_not_nullish body "message" Hn) as [? ->].
    cbn [mbind Completion_bind]. by rewrite Hfalsy.
Qed.

(** Witness of X15: a body with an empty user id, on a port that would
    accept anything. *)
Lemma handleNotifyUser_answers_before_processing_witness :
  EventAdapter.status
    (EventAdapter.response
       (EventAdapter.handleNotifyUser
          (λ _ (w : nat), {| handled := []; settled := Fulfilled (); world := S w |})
          (JObj [("userId", JStr ""); ("message", JStr "hello")]) 0))
  = 400.
Proof.
  destruct (handleNotifyUser_answers_before_processing
              (λ _ (w : nat), {| handled := []; settled := Fulfilled (); world := S w |})
              (JObj [("userId", JStr ""); ("message", JStr "hello")]) 0) as [_ Hbad].
  rewrite (Hbad (JStr "") eq_refl eq_refl). reflexivity.
Defined.

(** The event the notify-user route builds from the six fields. *)
Lemma notifyUser_event_is_valid (userId cryptoId alertPrice currentPrice alertType
    message : JsValue) :
  let body := JObj [("userId", userId); ("cryptoId", cryptoId);
                    ("alertPrice", alertPrice); ("currentPrice", currentPrice);
                    ("alertType", alertType); ("message", message)] in
  let event := JObj [("eventType", JStr EventType.USER_NOTIFICATION); ("payload", body)] in
  EventService.isValidEventData event = Normal true
  ∧ EventService.as_Event event
    = {| eventType := JStr EventType.USER_NOTIFICATION; payload := body |}.
Proof. split; vm_compute; reflexivity. Qed.

(** X16. A request to the notify-user route with a body and a truthy
    [userId] is never turned away by validation: on the service over any
    dispatcher, the event that reaches [dispatch] has the USER_NOTIFICATION
    kind and a payload of the six fields read from the body, and the answer
    is 200 when [dispatch] returns and 500 when it throws. *)
Theorem handleNotifyUser_reaches_dispatch `{Runtime} {W : Type}
    (eventDispatcher : gmap string (list (EventHandler W))) (body : JsValue) (w : W) :
  nullish body = false →
  (∀ userId, get_prop body "userId" = Normal userId → truthy userId = true) →
  let field name := match get_prop body name with
                    | Normal v => v
                    | Throw _ => JUndefined
                    end in
  let event :=
    {| eventType := JStr EventType.USER_NOTIFICATION;
       payload := JObj [("userId", field "userId"); ("cryptoId", field "cryptoId");
                        ("alertPrice", field "alertPrice");
                        ("currentPrice", field "currentPrice");
                        ("alertType", field "alertType"); ("message", field "message")] |} in
  let r := DomainEventDispatcher.dispatch eventDispatcher event w in
  let served := EventAdapter.handleNotifyUser
                  (EventService.processEvent eventDispatcher) body w in
  EventAdapter.ran served = invoked r
  ∧ EventAdapter.left served = after r
  ∧ EventAdapter.status (EventAdapter.response served)
    = match outcome r with
      | Normal _ => 200
      | Throw _ => 500
      end.
Proof.
  intros Hn Htruthy field event r served. subst field event r served.
  unfold EventAdapter.handleNotifyUser.
  destruct (get_prop_not_nullish body "userId" Hn) as [userId Hu].
  destruct (get_prop_not_nullish body "cryptoId" Hn) as [cryptoId Hc].
  destruct (get_prop_not_nullish body "alertPrice" Hn) as [alertPrice Ha].
  destruct (get_prop_not_nullish body "currentPrice" Hn) as [currentPrice Hp].
  destruct (get_prop_not_nullish body "alertType" Hn) as [alertType Ht].
  destruct (get_prop_not_nullish body "message" Hn) as [message Hm].
  rewrite Hu, Hc, Ha, Hp, Ht, Hm. cbn [mbind Completion_bind].
  rewrite (Htruthy userId Hu). cbn [negb].
  destruct (notifyUser_event_is_valid userId cryptoId alertPrice currentPrice alertType
              message) as [Hvalid Hevent].
  unfold EventService.processEvent. rewrite Hvalid, Hevent.
  cbn [EventAdapter.ran EventAdapter.left EventAdapter.response handled world settled].
  split; [done|]. split; [done|]. by destruct (outcome _).
Qed.

(** Witness of X16: the notification of the test suite, posted to the
    route of a service on the recording ports. *)
Lemma handleNotifyUser_reaches_dispatch_witness :
  let body := JObj [("userId", JStr "user123"); ("cryptoId", JStr "bitcoin");
                    ("alertPrice", JStr "40000"); ("currentPrice", JStr "41000");
                    ("alertType", JStr "ABOVE")] in
  EventAdapter.status
    (EventAdapter.response
       (EventAdapter.handleNotifyUser
          (@EventService.processEvent sample_runtime _
             (@Recorder.eventService (λ _, "") sample_runtime))
          body {| Recorder.calls := []; Recorder.reads := 0 |}))
  = 200.
Proof.
  intros body.
  destruct (@handleNotifyUser_reaches_dispatch sample_runtime _
              (@Recorder.eventService (λ _, "") sample_runtime) body
              {| Recorder.calls := []; Recorder.reads := 0 |}) as (_ & _ & ->).
  - reflexivity.
  - intros userId [= <-]. reflexivity.
  - vm_compute. reflexivity.
Defined.

(** X17. On the crypto-market-data route every failure of [processEvent]
    is answered with one and the same 500 response, be it an invalid event,
    an event without a handler or a handler that threw; an event that does
    not pass validation is answered so without any handler having run and
    with the world as it was. The answer is 200 exactly when the promise of
    [processEvent] is fulfilled. *)
Theorem handleEvent_answers `{Runtime} {W : Type}
    (eventDispatcher : gmap string (list (EventHandler W))) (body : JsValue) (w : W) :
  let p := EventService.processEvent eventDispatcher body w in
  let served := EventAdapter.handleEvent (EventService.processEvent eventDispatcher) body w in
  (settled p = Fulfilled ()
   → EventAdapter.response served
     = {| EventAdapter.status := 200;
          EventAdapter.json := JObj [("status", JStr "Event processed")] |})
  ∧ (settled p ≠ Fulfilled ()
     → EventAdapter.response served = EventAdapter.internalServerError)
  ∧ (EventService.isValidEventData body ≠ Normal true
     → served = {| EventAdapter.response := EventAdapter.internalServerError;
                   EventAdapter.ran := []; EventAdapter.left := w |}).
Proof.
  intros p served. subst p served. unfold EventAdapter.handleEvent.
  split; [|split].
  - by intros ->.
  - destruct (settled _) as [[]|e]; done.
  - unfold EventService.processEvent.
    by destruct (EventService.isValidEventData body) as [[|]|e].
Qed.

(** Witness of X17: an event of an unknown kind. *)
Lemma handleEvent_answers_witness :
  EventAdapter.handleEvent
    (@EventService.processEvent sample_runtime _
       (@Recorder.eventService (λ _, "") sample_runtime))
    (JObj [("eventType", JStr "INVALID_TYPE"); ("payload", JArr [JNull])])
    {| Recorder.calls := []; Recorder.reads := 0 |}
  = {| EventAdapter.response := EventAdapter.internalServerError;
       EventAdapter.ran := [];
       EventAdapter.left := {| Recorder.calls := []; Recorder.reads := 0 |} |}.
Proof.
  apply (@handleEvent_answers sample_runtime _
           (@Recorder.eventService (λ _, "") sample_runtime)).
  vm_compute. discriminate.
Defined.

(** ** From the routes to the sockets and the relay *)

Lemma notification_six_fields `{Runtime} (userId cryptoId alertPrice currentPrice
    alertType message : JsValue) :
  truthy message = true →
  UserNotificationHandler.notification
    (JObj [("userId", userId); ("cryptoId", cryptoId); ("alertPrice", alertPrice);
           ("currentPrice", currentPrice); ("alertType", alertType);
           ("message", message)])
  = Normal (userId, message).
Proof.
  intros Hm. unfold UserNotificationHandler.notification.
  cbn [get_prop mbind Completion_bind].
  change (own_property _ "message") with message.
  change (own_property _ "userId") with userId.
  by rewrite Hm.
Qed.

(** X18. On the service wired to the two adapters, once the socket adapter
    is initialised, a request to the notify-user route whose body carries a
    user id that is a non-empty string and a truthy message: when the table
    has an own property for the user id, the user id not being
    [__proto__], the request is answered 200 and the message is emitted on
    that socket and on nothing else; when the table has none, its
    prototype is [Object.prototype] and the user id is not [__proto__] and
    names no member of [Object.prototype], the request is answered 200 and
    nothing is emitted; when the table has none, its prototype is
    [Object.prototype] and the user id names one of its members, the
    request is answered 500 and nothing is emitted. In each case the table,
    the relay and the clock are left as they were. *)
Theorem notifyUser_reaches_bound_socket `{Runtime} `{SocketIOAdapter.SocketClass}
    (clock : nat → string)
    (baseUrl : string) (axios_post : string → JsValue → Completion (Promise unit))
    (props : list (string * JsValue)) (user : string) (w : Production.World) :
  SocketIOAdapter.isInitialized (Production.sockets w) = true →
  own_property props "userId" = JStr user →
  user ≠ "" →
  truthy (own_property props "message") = true →
  let served :=
    EventAdapter.handleNotifyUser
      (EventService.processEvent (Production.eventService clock baseUrl axios_post))
      (JObj props) w in
  let table := SocketIOAdapter.userSocketMap (Production.sockets w) in
  (∀ userSocket, user ≠ "__proto__" →
     SocketIOAdapter.entries table !! user = Some userSocket →
     EventAdapter.status (EventAdapter.response served) = 200
     ∧ EventAdapter.left served
       = {| Production.sockets := Production.sockets w;
            Production.emitted :=
              Production.emitted w
              ++ [SocketIOAdapter.SocketEmit (SocketIOAdapter.id userSocket)
                    "user-specific-event"
                    (JObj [("message", own_property props "message")])];
            Production.relay := Production.relay w;
            Production.ticks := Production.ticks w |})
  ∧ (SocketIOAdapter.entries table !! user = None →
     SocketIOAdapter.prototype table = None →
     user ∉ "__proto__" :: SocketIOAdapter.Object_prototype_names →
     EventAdapter.status (EventAdapter.response served) = 200
     ∧ EventAdapter.left served = w)
  ∧ (SocketIOAdapter.entries table !! user = None →
     SocketIOAdapter.prototype table = None →
     user ∈ SocketIOAdapter.Object_prototype_names →
     EventAdapter.response served = EventAdapter.internalServerError
     ∧ EventAdapter.left served = w).
Proof.
  intros Hinit Hu Hne Hm served table. subst served table.
  unfold EventAdapter.handleNotifyUser. cbn [get_prop mbind Completion_bind].
  rewrite Hu. cbn [truthy]. rewrite bool_decide_eq_false_2 by done. cbn [negb].
  destruct (notifyUser_event_is_valid (JStr user) (own_property props "cryptoId")
              (own_property props "alertPrice") (own_property props "currentPrice")
              (own_property props "alertType") (own_property props "message"))
    as [Hvalid Hevent].
  unfold EventService.processEvent. rewrite Hvalid, Hevent.
  unfold DomainEventDispatcher.dispatch, DomainEventDispatcher.Map_get,
    Production.eventService.
  cbn [eventType].
  rewrite EventService_constructor_lookup
    by (do 2 apply list_elem_of_further; apply list_elem_of_here).
  rewrite bool_decide_eq_true_2 by done.
  cbn [DomainEventDispatcher.forEach_handle UserNotificationHandler.instance handle hid].
  unfold UserNotificationHandler.handle. cbn [payload].
  rewrite (notification_six_fields _ _ _ _ _ _ Hm).
  cbn [sendToUser Production.eventOutput]. unfold Production.deliver.
  rewrite (sendToUser_initialized _ _ _ Hinit).
  split; [|split].
  - intros userSocket Hproto Hs. by rewrite (Table_get_entry _ _ userSocket).
  - intros Hnone Hplain Hnames. rewrite Table_get_absent by done.
    cbn. rewrite app_nil_r. by destruct w.
  - intros Hnone Hplain Hnames.
    assert (Hproto : user ≠ "__proto__").
    { intros ->. revert Hnames. apply (bool_decide_unpack _). vm_compute. exact I. }
    unfold SocketIOAdapter.Table_get.
    rewrite bool_decide_eq_false_2 by done. rewrite Hnone, Hplain.
    rewrite bool_decide_eq_true_2 by done. done.
Qed.

(** Witness of X18: the user is connected on one socket and is sent a
    custom message; then a message for a user id that names a member of
    [Object.prototype]. *)
Lemma notifyUser_reaches_bound_socket_witness :
  let w := {| Production.sockets :=
                @SocketIOAdapter.run sample_sockets Sample.cookie_parse Sample.validateToken
                  [SocketIOAdapter.Connect (Some "authToken=good") "socket-1"];
              Production.emitted := [];
              Production.relay := Production.relay Sample.started;
              Production.ticks := 0 |} in
  let notifyUser props :=
    EventAdapter.handleNotifyUser
      (@EventService.processEvent sample_runtime _
         (@Production.eventService sample_runtime sample_sockets (λ _, "")
            "http://notification:3000" Sample.relay_down))
      (JObj props) w in
  Production.emitted
    (EventAdapter.left
       (notifyUser [("userId", JStr "testUser"); ("message", JStr "hello")]))
  = [SocketIOAdapter.SocketEmit "socket-1" "user-specific-event"
       (JObj [("message", JStr "hello")])]
  ∧ EventAdapter.response
      (notifyUser [("userId", JStr "valueOf"); ("message", JStr "hello")])
    = EventAdapter.internalServerError.
Proof.
  intros w notifyUser. subst notifyUser. cbv beta.
  destruct (@notifyUser_reaches_bound_socket sample_runtime sample_sockets (λ _, "")
              "http://notification:3000" Sample.relay_down
              [("userId", JStr "testUser"); ("message", JStr "hello")] "testUser" w)
    as (Hbound & _ & _);
    [vm_compute; reflexivity|reflexivity|discriminate|reflexivity|].
  destruct (@notifyUser_reaches_bound_socket sample_runtime sample_sockets (λ _, "")
              "http://notification:3000" Sample.relay_down
              [("userId", JStr "valueOf"); ("message", JStr "hello")] "valueOf" w)
    as (_ & _ & Hinherited);
    [vm_compute; reflexivity|reflexivity|discriminate|reflexivity|].
  split.
  - destruct (Hbound Sample.first) as [_ ->];
      [discriminate|vm_compute; reflexivity|reflexivity].
  - destruct Hinherited as [-> _];
      [vm_compute; reflexivity|vm_compute; reflexivity| |reflexivity].
    apply (bool_decide_unpack _). vm_compute. exact I.
Defined.

Lemma nonempty_length_is_not_zero (elems : list JsValue) :
  elems ≠ [] →
  strict_equals_zero (JNum (Q2Qc (inject_Z (Z.of_nat (length elems))))) = false.
Proof.
  intros Hne. apply bool_decide_eq_false_2. intros Heq.
  apply (f_equal this) in Heq. cbn [this Q2Qc] in Heq.
  assert (Hq : (inject_Z (Z.of_nat (length elems)) == 0)%Q).
  { rewrite <- (Qred_correct (inject_Z _)), Heq. reflexivity. }
  unfold Qeq, inject_Z in Hq. cbn in Hq.
  destruct elems; [done|]. cbn in Hq. lia.
Qed.

(** X19. On the service wired to the two adapters, once the socket adapter
    is initialised, a request to the crypto-market-data route with an EUR
    or USD event whose payload is a non-empty sequence without [null] and
    [undefined] elements is answered 200 whatever [axios.post] does: one
    message goes out on the public server under the event name of the
    currency, carrying the payload as it came, one request is made to the
    relay at the address of the currency, carrying the projections, and the
    table is left as it was. *)
Theorem cryptomarketdata_broadcasts_and_relays `{Runtime} `{SocketIOAdapter.SocketClass}
    (clock : nat → string)
    (baseUrl : string) (axios_post : string → JsValue → Completion (Promise unit))
    (kind channel currency : string) (records : list JsValue) (w : Production.World) :
  (kind, channel, currency) = (EventType.CRYPTO_UPDATE_EUR, "broadcastEUR", "eur")
  ∨ (kind, channel, currency) = (EventType.CRYPTO_UPDATE_USD, "broadcastUSD", "usd") →
  SocketIOAdapter.isInitialized (Production.sockets w) = true →
  records ≠ [] →
  Forall (λ x, nullish x = false) records →
  let body := JObj [("eventType", JStr kind); ("payload", JArr records)] in
  let served :=
    EventAdapter.handleEvent
      (EventService.processEvent (Production.eventService clock baseUrl axios_post))
      body w in
  ∃ projected,
    Forall2 (λ x p, NotificationUpdateMessage.project x = Normal p) records projected
    ∧ EventAdapter.response served
      = {| EventAdapter.status := 200;
           EventAdapter.json := JObj [("status", JStr "Event processed")] |}
    ∧ Production.sockets (EventAdapter.left served) = Production.sockets w
    ∧ Production.emitted (EventAdapter.left served)
      = Production.emitted w
        ++ [SocketIOAdapter.ServerEmit channel
              (ViewUpdateMessage.createViewUpdateMessage (clock (Production.ticks w))
                 (JArr records))]
    ∧ NotificationAdapter.requests (Production.relay (EventAdapter.left served))
      = NotificationAdapter.requests (Production.relay w)
        ++ [(baseUrl +:+ "/data?currency=" +:+ currency,
             JObj [("timestamp", JStr (clock (S (Production.ticks w))));
                   ("payload", JArr projected)])].
Proof.
  intros Hkind Hinit Hne Hall body served. subst body served.
  destruct (mapM_project_not_nullish records Hall) as (projected & Hmap & Hproj).
  exists projected. split; [exact Hproj|].
  assert (Hin : kind ∈ EventType.values).
  { destruct Hkind as [[= -> _ _] | [= -> _ _]];
      [apply list_elem_of_here | apply list_elem_of_further, list_elem_of_here]. }
  assert (Hvalid : EventService.isValidEventData
                     (JObj [("eventType", JStr kind); ("payload", JArr records)])
                   = Normal true).
  { rewrite (isValidEventData_known_kind _ kind (JArr records)) by done.
    unfold get_prop. rewrite bool_decide_eq_true_2 by done.
    cbn [mbind Completion_bind]. by rewrite nonempty_length_is_not_zero. }
  unfold EventAdapter.handleEvent, EventService.processEvent. rewrite Hvalid.
  change (EventService.as_Event (JObj [("eventType", JStr kind); ("payload", JArr records)]))
    with {| eventType := JStr kind; payload := JArr records |}.
  unfold DomainEventDispatcher.dispatch, DomainEventDispatcher.Map_get,
    Production.eventService.
  cbn [eventType]. rewrite (EventService_constructor_lookup _ _ _ Hin).
  assert (Hcrypto : bool_decide (kind = EventType.USER_NOTIFICATION) = false).
  { by destruct Hkind as [[= -> _ _] | [= -> _ _]]. }
  rewrite Hcrypto.
  cbn [DomainEventDispatcher.forEach_handle CryptoUpdateHandler.instance handle hid].
  unfold CryptoUpdateHandler.handle.
  cbn [now_toISOString Production.World_clock Production.ticks Production.sockets
       Production.emitted Production.relay].
  unfold NotificationUpdateMessage.createNotificationUpdateMessage,
    NotificationUpdateMessage.Array_map.
  cbn [payload eventType]. rewrite Hmap. cbn [mbind Completion_bind].
  unfold strict_equals_string.
  destruct Hkind as [[= -> -> ->] | [= -> -> ->]].
  - rewrite bool_decide_eq_true_2 by done.
    cbn. unfold Production.deliver, SocketIOAdapter.broadcastEUR. cbn.
    rewrite Hinit. cbn. unfold NotificationAdapter.sendNotification.
    by destruct (axios_post _ _) as [[]|].
  - rewrite bool_decide_eq_false_2 by done. rewrite bool_decide_eq_true_2 by done.
    cbn. unfold Production.deliver, SocketIOAdapter.broadcastUSD. cbn.
    rewrite Hinit. cbn. unfold NotificationAdapter.sendNotification.
    by destruct (axios_post _ _) as [[]|].
Qed.

(** Witness of X19: the EUR event posted while the relay is down. *)
Lemma cryptomarketdata_broadcasts_and_relays_witness :
  EventAdapter.status
    (EventAdapter.response
       (EventAdapter.handleEvent
          (@EventService.processEvent sample_runtime _
             (@Production.eventService sample_runtime sample_sockets (λ _, "")
                "http://notification:3000" Sample.relay_down))
          Sample.eurEventJson Sample.started))
  = 200.
Proof.
  destruct (@cryptomarketdata_broadcasts_and_relays sample_runtime sample_sockets (λ _, "")
              "http://notification:3000" Sample.relay_down
              EventType.CRYPTO_UPDATE_EUR "broadcastEUR" "eur"
              [JObj [("id", JStr "bitcoin"); ("symbol", JStr "btc")]] Sample.started)
    as (projected & _ & Hresponse & _).
  - left. reflexivity.
  - reflexivity.
  - discriminate.
  - repeat constructor.
  - change Sample.eurEventJson
      with (JObj [("eventType", JStr EventType.CRYPTO_UPDATE_EUR);
                  ("payload", JArr [JObj [("id", JStr "bitcoin"); ("symbol", JStr "btc")]])]).
    by rewrite Hresponse.
Defined.

(** ** The address of the relay *)

Lemma env_or_nonempty (env : string → option string) (name fallback : string) :
  fallback ≠ "" →
  NotificationAdapter.env_or env name fallback ≠ ""
  ∧ (∀ value, env name = Some value → value ≠ "" →
       NotificationAdapter.env_or env name fallback = value)
  ∧ (env name = None ∨ env name = Some "" →
     NotificationAdapter.env_or env name fallback = fallback).
Proof.
  intros Hf. unfold NotificationAdapter.env_or.
  destruct (env name) as [value|]; [case_bool_decide|]; repeat split; try done.
  - by intros ? [= ->].
  - intros ? [= ->]. done.
  - intros [?| [= ->]]; done.
Qed.

(** X20. The base address the constructor computes is [http://], a host, a
    colon and a port, where neither host nor port is empty: each is the
    value of its environment variable when that is set and not empty, and
    otherwise the default, [notification] for the host and [3000] for the
    port. *)
Theorem baseUrl_has_host_and_port (env : string → option string) :
  ∃ host port,
    NotificationAdapter.constructor env = "http://" +:+ host +:+ ":" +:+ port
    ∧ host ≠ "" ∧ port ≠ ""
    ∧ (∀ value, env "NOTIFICATION_SERVICE_NAME" = Some value → value ≠ "" → host = value)
    ∧ (env "NOTIFICATION_SERVICE_NAME" = None ∨ env "NOTIFICATION_SERVICE_NAME" = Some "" →
       host = "notification")
    ∧ (∀ value, env "NOTIFICATION_SERVICE_PORT" = Some value → value ≠ "" → port = value)
    ∧ (env "NOTIFICATION_SERVICE_PORT" = None ∨ env "NOTIFICATION_SERVICE_PORT" = Some "" →
       port = "3000").
Proof.
  destruct (env_or_nonempty env "NOTIFICATION_SERVICE_NAME" "notification")
    as (Hh1 & Hh2 & Hh3); [done|].
  destruct (env_or_nonempty env "NOTIFICATION_SERVICE_PORT" "3000")
    as (Hp1 & Hp2 & Hp3); [done|].
  eexists _, _. split; [reflexivity|]. by repeat split.
Qed.
